(** * Le Mixologue Augmenté: image generation chain, prompts and detail view

    A shallow embedding of the image-generation parts of the application:
    - the service selection logic [generate_image] of the backend
      (documentation of the Stability AI integration, "Logique de Sélection
      du Service");
    - the lookup tables [color_map] and [style_keywords] and the documented
      example of a generated prompt (Stable Diffusion guide);
    - the [CocktailDetail] React component in its two versions (the one that
      posts the prompt, and the later one that posts the cocktail id and
      takes a [source] property).

    Python and JavaScript values are modelled as the code uses them:
    a value that is either a string or None/null/undefined is an
    [option string], and the tests [if result:] / [if (data.image_url)]
    are the truthiness tests of the two languages. *)

From Stdlib Require Import String Ascii List Bool Arith Lia ZArith DecimalString.
Import ListNotations.
Open Scope string_scope.

(* ===================================================================== *)
(** * Part I: definitions *)
(* ===================================================================== *)

(** ** Truthiness of optional strings and numbers

    In Python [None] and [""] are falsy, every other string is truthy; in
    JavaScript [null], [undefined] and [""] are falsy, and so is the
    number [0]. *)

Definition truthy (r : option string) : bool :=
  match r with
  | Some s => negb (s =? "")
  | None => false
  end.

Definition truthy_num (n : option Z) : bool :=
  match n with
  | Some z => negb (z =? 0)%Z
  | None => false
  end.

(** [a || b] on optional strings, as in [generatedImage || '/default.webp']. *)
Definition js_or (a : option string) (b : string) : string :=
  match a with
  | Some s => if s =? "" then b else s
  | None => b
  end.

(** ** The cocktail record

    Fields of the JSON object returned by the API and of the [Cocktail]
    table, plus [image_path], which the detail view reads and assigns. *)

Record Cocktail : Type := mkCocktail {
  id : option Z;
  name : string;
  ingredients : list string;
  description : string;
  music_ambiance : option string;
  image_prompt : option string;
  user_prompt : string;
  image_path : option string;
  created_at : string
}.

(** ** A log of calls

    The selection logic calls out to services; the calls it makes are
    recorded, in order, next to the value it returns. *)

Module Log.

Definition M (E A : Type) : Type := (A * list E)%type.

Definition ret {E A} (a : A) : M E A := (a, []).

Definition bind {E A B} (c : M E A) (k : A -> M E B) : M E B :=
  let (a, l1) := c in
  let (b, l2) := k a in
  (b, (l1 ++ l2)%list).

Definition emit {E} (e : E) : M E unit := (tt, [e]).

Definition value {E A} (c : M E A) : A := fst c.
Definition calls {E A} (c : M E A) : list E := snd c.

End Log.

Notation "x <- c ;; k" := (Log.bind c (fun x => k))
  (at level 61, c at next level, right associativity).
Notation "c ;;; k" := (Log.bind c (fun _ => k))
  (at level 61, right associativity).

(** ** The image services and their selection ([generate_image])

    Two services are held by the object, each possibly absent ([None]):
    Stability AI, which is asked [is_available()] first, and the local
    DynaPictures service, which is called whenever it is present.
    [generate_cocktail_image] returns a reference (path or URL) or a falsy
    value; a failure inside a service is a falsy return value. *)

Inductive ServiceId : Type := StabilityAI | DynaPictures.

Definition ServiceId_eqb (a b : ServiceId) : bool :=
  match a, b with
  | StabilityAI, StabilityAI => true
  | DynaPictures, DynaPictures => true
  | _, _ => false
  end.

Record StabilityAIService : Type := {
  is_available : bool;
  stability_generate_cocktail_image : Cocktail -> option string
}.

Record DynaPicturesService : Type := {
  dynapictures_generate_cocktail_image : Cocktail -> option string
}.

Record ImageServices : Type := {
  stability_service : option StabilityAIService;
  dynapictures_service : option DynaPicturesService
}.

(** The final fallback, [return "/default.webp"]. *)
Definition default_image : string := "/default.webp".

(** One call of [generate_cocktail_image] on the service [s]. *)
Definition call (s : ServiceId) (generate : Cocktail -> option string)
  (cocktail_data : Cocktail) : Log.M ServiceId (option string) :=
  Log.emit s ;;; Log.ret (generate cocktail_data).

(** The first block of [generate_image]: [Some r] when the function
    returns [r] from inside the block, [None] when it falls through. *)
Definition try_stability (self : ImageServices) (cocktail_data : Cocktail)
  : Log.M ServiceId (option string) :=
  match stability_service self with
  | Some st =>
      if is_available st then
        result <- call StabilityAI (stability_generate_cocktail_image st)
                    cocktail_data ;;
        Log.ret (if truthy result then result else None)
      else Log.ret None
  | None => Log.ret None
  end.

(** The second block. *)
Definition try_dynapictures (self : ImageServices) (cocktail_data : Cocktail)
  : Log.M ServiceId (option string) :=
  match dynapictures_service self with
  | Some dp =>
      result <- call DynaPictures (dynapictures_generate_cocktail_image dp)
                  cocktail_data ;;
      Log.ret (if truthy result then result else None)
  | None => Log.ret None
  end.

Definition generate_image (self : ImageServices) (cocktail_data : Cocktail)
  : Log.M ServiceId string :=
  r1 <- try_stability self cocktail_data ;;
  match r1 with
  | Some result => Log.ret result
  | None =>
      r2 <- try_dynapictures self cocktail_data ;;
      match r2 with
      | Some result => Log.ret result
      | None => Log.ret default_image
      end
  end.

(** ** The services seen as a priority list of adapters

    An adapter has an identity, an availability flag and a generation
    function.  [adapters self] lists the services that are present, in the
    order in which [generate_image] considers them.  The DynaPictures
    service is never asked for its availability: when present it is always
    tried. *)

Record Adapter : Type := {
  adapter_id : ServiceId;
  available : bool;
  generate : Cocktail -> option string
}.

Definition stability_adapter (st : StabilityAIService) : Adapter :=
  {| adapter_id := StabilityAI;
     available := is_available st;
     generate := stability_generate_cocktail_image st |}.

Definition dynapictures_adapter (dp : DynaPicturesService) : Adapter :=
  {| adapter_id := DynaPictures;
     available := true;
     generate := dynapictures_generate_cocktail_image dp |}.

Definition adapters (self : ImageServices) : list Adapter :=
  (match stability_service self with
   | Some st => [stability_adapter st]
   | None => []
   end ++
   match dynapictures_service self with
   | Some dp => [dynapictures_adapter dp]
   | None => []
   end)%list.

(** Adapter number [k], counted from 1. *)
Definition adapter_at (self : ImageServices) (k : nat) : option Adapter :=
  match k with
  | 0 => None
  | S i => nth_error (adapters self) i
  end.

(** An adapter succeeds on a cocktail when it is available and its
    generation returns a truthy reference. *)
Definition succeeds (a : Adapter) (c : Cocktail) : bool :=
  available a && truthy (generate a c).

(** The fallback chain as the specification words it, over an arbitrary
    priority list: try the adapters in order, skip the unavailable ones,
    stop at the first truthy result, end on the default image.  It is the
    reference against which [generate_image] is compared. *)
Fixpoint spec_generateImage (l : list Adapter) (c : Cocktail)
  : Log.M ServiceId string :=
  match l with
  | [] => Log.ret default_image
  | a :: rest =>
      if available a then
        result <- call (adapter_id a) (generate a) c ;;
        match (if truthy result then result else None) with
        | Some r => Log.ret r
        | None => spec_generateImage rest c
        end
      else spec_generateImage rest c
  end.

(** Number of calls made to the service [s] in a log. *)
Definition invocations (s : ServiceId) (log : list ServiceId) : nat :=
  length (filter (ServiceId_eqb s) log).

(** ** Strings: lower-casing and substring search

    [lower] is [str.lower()] on the ASCII letters; [contains k s] is the
    test [k in s] of Python and [s.includes(k)] of JavaScript. *)

Definition lower_ascii (c : ascii) : ascii :=
  let n := nat_of_ascii c in
  if ((65 <=? n) && (n <=? 90))%nat then ascii_of_nat (n + 32) else c.

Fixpoint lower (s : string) : string :=
  match s with
  | EmptyString => EmptyString
  | String c rest => String (lower_ascii c) (lower rest)
  end.

Fixpoint contains (needle hay : string) : bool :=
  prefix needle hay ||
  match hay with
  | EmptyString => false
  | String _ rest => contains needle rest
  end.

(** [s] starts with [p]; [s] ends with [p]. *)
Definition starts_with (p s : string) : bool := prefix p s.

Definition ends_with (p s : string) : bool :=
  (String.length p <=? String.length s)%nat &&
  (substring (String.length s - String.length p) (String.length p) s =? p).

(** ** The lookup tables of the prompt construction

    The guide lists the first entries of both dictionaries and elides the
    rest ([# ... etc]); the elided entries are the parameters [color_etc]
    and [style_etc], placed after the listed ones. *)

Definition Table : Type := list (string * string).

Definition color_map (color_etc : Table) : Table :=
  ([ ("rhum", "golden amber");
     ("whisky", "deep amber");
     ("vodka", "crystal clear");
     ("gin", "clear with botanical hints");
     ("tequila", "pale gold");
     ("grenadine", "ruby red gradient") ] ++ color_etc)%list.

Definition style_keywords (style_etc : Table) : Table :=
  ([ ("tropical", "tropical paradise setting with palm leaves");
     ("summer", "bright summer atmosphere");
     ("winter", "cozy winter ambiance");
     ("elegant", "sophisticated upscale bar") ] ++ style_etc)%list.

(** ** The prompt builder *)

(** Modelled from the spec: the function that builds the prompt (in the
    backend service of the local image generator) is not among the
    sources; only its tables, the list of what it uses and one generated
    prompt are documented.  Matching is the case-insensitive substring
    search of §4.1 over the ordered table, first match wins (§9). *)
Fixpoint first_match (table : Table) (text : string) : option string :=
  match table with
  | [] => None
  | (keyword, descriptor) :: rest =>
      if contains (lower keyword) (lower text) then Some descriptor
      else first_match rest text
  end.

(** Modelled from the spec: the colour descriptors, one for each
    ingredient that matches an entry of the table, in the order of the
    ingredients; an ingredient without a match is left out (§4.1). *)
Fixpoint color_descriptors (table : Table) (ingredients : list string)
  : list string :=
  match ingredients with
  | [] => []
  | ingredient :: rest =>
      match first_match table ingredient with
      | Some color => color :: color_descriptors table rest
      | None => color_descriptors table rest
      end
  end.

(** Modelled from the spec: the setting descriptor of the description,
    none when no keyword occurs in it (§4.1). *)
Definition setting_descriptors (table : Table) (description : string)
  : list string :=
  match first_match table description with
  | Some setting => [setting]
  | None => []
  end.

(** The quality qualifiers quoted in §4.1. *)
Definition quality_qualifiers : string :=
  "professional photography, high quality, detailed, 8k resolution, studio lighting, elegant presentation".

(** The fixed words around the four parts, as they stand in the documented
    example of a generated prompt. *)
Definition lead_in : string := "A beautiful ".
Definition glass : string := " cocktail in an elegant glass".
Definition closing_qualifiers : string :=
  ", premium cocktail, sophisticated bar setting, crystal clear glass".

(** Modelled from the spec: how the colour descriptors enter the prompt
    (the builder's code is not among the sources): joined by commas
    between "with" and "tones" as in the documented example, and nothing
    at all when no ingredient matched (§4.1). *)
Definition color_part (colors : list string) : string :=
  match colors with
  | [] => ""
  | _ => ", with " ++ String.concat ", " colors ++ " tones"
  end.

(** Modelled from the spec: how the setting descriptors enter the prompt
    (the builder's code is not among the sources): after a comma, and
    nothing at all when no keyword matched (§4.1). *)
Definition setting_part (settings : list string) : string :=
  match settings with
  | [] => ""
  | _ => ", " ++ String.concat ", " settings
  end.

(** Modelled from the spec: the prompt derived from name, ingredients
    and description when the cocktail has no prompt of its own (§4.1:
    name, then colour descriptors, then setting descriptors, then the
    quality qualifiers), inside the fixed words of the documented
    example. *)
Definition derived_prompt (color_etc style_etc : Table) (c : Cocktail)
  : string :=
  lead_in ++ name c ++ glass
  ++ color_part (color_descriptors (color_map color_etc) (ingredients c))
  ++ setting_part (setting_descriptors (style_keywords style_etc) (description c))
  ++ ", " ++ quality_qualifiers ++ closing_qualifiers.

(** Modelled from the spec: the prompt builder (its code is not among the
    sources).  A truthy [image_prompt] is used as it is (§4.1, and
    "Utilise le prompt personnalisé si image_prompt est fourni" in the
    guide); otherwise the prompt is derived. *)
Definition build_prompt (color_etc style_etc : Table) (c : Cocktail)
  : string :=
  js_or (image_prompt c) (derived_prompt color_etc style_etc c).

(** The generated prompt shown in the guide ("Exemple de prompt
    généré"), its display lines joined. *)
Definition documented_example : string :=
  "A beautiful Mojito Tropical cocktail in an elegant glass, with golden amber, bright yellow tones, tropical paradise setting with palm leaves, professional photography, high quality, detailed, 8k resolution, studio lighting, elegant presentation, premium cocktail, sophisticated bar setting, crystal clear glass".

(** A cocktail with the given name, ingredients, description and prompt. *)
Definition cocktail_of (n : string) (ings : list string) (d : string)
  (p : option string) : Cocktail :=
  {| id := Some 1%Z; name := n; ingredients := ings; description := d;
     music_ambiance := None; image_prompt := p; user_prompt := "";
     image_path := None; created_at := "" |}.

(** The scenario of §8. *)
Definition tropical_sunset : Cocktail :=
  cocktail_of "Mojito Tropical" ["4 cl rhum blanc"; "jus d'ananas"]
    "tropical sunset" None.

(** The same cocktail with a prompt of its own. *)
Definition tropical_sunset_with_prompt : Cocktail :=
  cocktail_of "Mojito Tropical" ["4 cl rhum blanc"; "jus d'ananas"]
    "tropical sunset" (Some "Cocktail tropical dans un verre hurricane").

(** The same name, ingredients and description in another record. *)
Definition tropical_sunset_again : Cocktail :=
  {| id := Some 2%Z; name := "Mojito Tropical";
     ingredients := ["4 cl rhum blanc"; "jus d'ananas"];
     description := "tropical sunset";
     music_ambiance := Some "Musique lounge tropicale";
     image_prompt := Some "";
     user_prompt := "Je veux un cocktail fruité";
     image_path := Some "/cocktail_2.jpeg";
     created_at := "2024-01-15T10:30:00.000Z" |}.

Definition set_ingredients (ings : list string) (c : Cocktail) : Cocktail :=
  {| id := id c; name := name c; ingredients := ings;
     description := description c; music_ambiance := music_ambiance c;
     image_prompt := image_prompt c; user_prompt := user_prompt c;
     image_path := image_path c; created_at := created_at c |}.

(** ** Provider adapters *)

(** The credential check of the start script: a key counts as configured
    when it is neither empty ([-z]) nor the placeholder of the template. *)
Definition key_configured (key placeholder : string) : bool :=
  negb ((key =? "") || (key =? placeholder)).

Inductive ProviderResult : Type :=
| Success (reference : string)
| Failure (reason : string).

(** What comes back from the provider: a status with the reference read
    from the body ([None] when the body is malformed), or no answer. *)
Inductive HttpOutcome : Type :=
| Status (code : nat) (reference : option string)
| TransportError.

Record Request : Type := {
  request_url : string;
  request_prompt : string;
  request_cocktail : Z
}.

Record ProviderAdapter : Type := {
  provider_name : string;
  api_key : string;
  api_key_placeholder : string;
  endpoint : string;
  provider : Request -> HttpOutcome
}.

(** Modelled from the spec: the availability predicate of an adapter
    (the adapters' code is not among the sources): its credential is
    configured and is not a placeholder (§4.2). *)
Definition adapter_available (p : ProviderAdapter) : bool :=
  key_configured (api_key p) (api_key_placeholder p).

(** Modelled from the spec: the reading of the provider's answer (§4.2):
    a non-success status, a network error and a malformed body are
    failures, each with its reason. *)
Definition interpret (o : HttpOutcome) : ProviderResult :=
  match o with
  | TransportError => Failure "transient network error"
  | Status code reference =>
      if ((200 <=? code) && (code <? 300))%nat then
        match reference with
        | Some r => if r =? "" then Failure "malformed response" else Success r
        | None => Failure "malformed response"
        end
      else Failure "quota/auth error"
  end.

(** Modelled from the spec: [generate(prompt, cocktailId)] of an adapter
    (the adapters' code is not among the sources).  The availability is
    checked first; an available adapter sends one request (§4.2).  The log
    holds the requests sent. *)
Definition adapter_generate (p : ProviderAdapter) (prompt : string)
  (cocktailId : Z) : Log.M Request ProviderResult :=
  if adapter_available p then
    let request := {| request_url := endpoint p;
                      request_prompt := prompt;
                      request_cocktail := cocktailId |} in
    Log.emit request ;;; Log.ret (interpret (provider p request))
  else Log.ret (Failure "unavailable").

(** ** The detail view: what both versions share *)

Inductive Body : Type :=
| PromptBody (prompt : string)
| CocktailIdBody (cocktail_id : Z).

(** What a run of the component does to the outside: a POST request, or
    the assignment [cocktail.image_path = data.image_url]. *)
Inductive Action : Type :=
| Post (url : string) (body : Body)
| AssignImagePath (image_url : string).

Definition is_post (a : Action) : bool :=
  match a with Post _ _ => true | AssignImagePath _ => false end.

Definition is_assignment (a : Action) : bool :=
  match a with Post _ _ => false | AssignImagePath _ => true end.

(** How [await fetch(...)] followed by [await response.json()] ends: with
    an error that carries a message, or with a response ([response.ok])
    whose body has the field [image_url] or not. *)
Inductive FetchOutcome : Type :=
| Rejected (message : string)
| Responded (ok : bool) (image_url : option string).

(** The four [useState] cells. *)
Record ViewState : Type := {
  generatedImage : option string;
  isGeneratingImage : bool;
  imageError : option string;
  showDefaultImage : bool
}.

Definition initial_state : ViewState :=
  {| generatedImage := None; isGeneratingImage := false;
     imageError := None; showDefaultImage := false |}.

Definition setGeneratedImage (v : option string) (st : ViewState) : ViewState :=
  {| generatedImage := v; isGeneratingImage := isGeneratingImage st;
     imageError := imageError st; showDefaultImage := showDefaultImage st |}.

Definition setIsGeneratingImage (v : bool) (st : ViewState) : ViewState :=
  {| generatedImage := generatedImage st; isGeneratingImage := v;
     imageError := imageError st; showDefaultImage := showDefaultImage st |}.

Definition setImageError (v : option string) (st : ViewState) : ViewState :=
  {| generatedImage := generatedImage st;
     isGeneratingImage := isGeneratingImage st;
     imageError := v; showDefaultImage := showDefaultImage st |}.

Definition setShowDefaultImage (v : bool) (st : ViewState) : ViewState :=
  {| generatedImage := generatedImage st;
     isGeneratingImage := isGeneratingImage st;
     imageError := imageError st; showDefaultImage := v |}.

Definition set_image_path (v : option string) (c : Cocktail) : Cocktail :=
  {| id := id c; name := name c; ingredients := ingredients c;
     description := description c; music_ambiance := music_ambiance c;
     image_prompt := image_prompt c; user_prompt := user_prompt c;
     image_path := v; created_at := created_at c |}.

(** The component instance together with the cocktail object it received.
    The object belongs to the parent; an assignment to one of its fields
    outlives the instance. *)
Record View : Type := {
  cocktail : Cocktail;
  state : ViewState
}.

(** A newly mounted instance on the object [c]. *)
Definition mount (c : Cocktail) : View :=
  {| cocktail := c; state := initial_state |}.

(** The [catch] block of both versions. *)
Definition on_error (message : string) (st : ViewState) : ViewState :=
  setShowDefaultImage true
    (setImageError
       (Some (if contains "500" message
              then "Service de génération d'images temporairement indisponible"
              else "Erreur lors de la génération de l'image"))
       st).

(** The source of the [<img>] element, when it is rendered:
    [(generatedImage || showDefaultImage) &&
     <img src={generatedImage || '/default.webp'} />]. *)
Definition image_shown (st : ViewState) : option string :=
  if truthy (generatedImage st) || showDefaultImage st
  then Some (js_or (generatedImage st) "/default.webp")
  else None.

Definition requests (log : list Action) : list Action := filter is_post log.
Definition assignments (log : list Action) : list Action :=
  filter is_assignment log.

(** ** The detail view that posts the prompt (CocktailDetail.jsx) *)

Module CocktailDetailPrompt.

Definition generateImage (v : View) (out : FetchOutcome) : Log.M Action View :=
  match image_prompt (cocktail v) with
  | Some prompt =>
      if prompt =? "" then Log.ret v
      else
        let st := setImageError None (setIsGeneratingImage true (state v)) in
        Log.emit (Post "http://localhost:5002/api/cocktails/generate-image"
                    (PromptBody prompt)) ;;;
        let st' :=
          match out with
          | Responded true image_url =>
              if truthy image_url
              then setShowDefaultImage false (setGeneratedImage image_url st)
              else setShowDefaultImage true
                     (setImageError
                        (Some "Génération d'images temporairement indisponible. Cette fonctionnalité nécessite une configuration avancée de l'API Mistral.")
                        st)
          | Responded false _ =>
              on_error "Erreur lors de la génération de l'image" st
          | Rejected message => on_error message st
          end in
        Log.ret {| cocktail := cocktail v;
                   state := setIsGeneratingImage false st' |}
  | None => Log.ret v
  end.

Definition useEffect (v : View) (out : FetchOutcome) : Log.M Action View :=
  if truthy (image_prompt (cocktail v)) && negb (truthy (generatedImage (state v)))
  then generateImage v out
  else if negb (truthy (image_prompt (cocktail v)))
  then Log.ret {| cocktail := cocktail v;
                  state := setShowDefaultImage true (state v) |}
  else Log.ret v.

End CocktailDetailPrompt.

(** ** The detail view with a [source] property (the later version) *)

Module CocktailDetail.

(** [source = 'history'] is the default of the property. *)
Definition source_of (source : option string) : string :=
  match source with
  | Some s => s
  | None => "history"
  end.

Definition generateImage (v : View) (out : FetchOutcome) : Log.M Action View :=
  match id (cocktail v) with
  | Some cocktail_id =>
      if (cocktail_id =? 0)%Z then Log.ret v
      else
        let st := setImageError None (setIsGeneratingImage true (state v)) in
        Log.emit (Post "http://localhost:5001/api/cocktails/generate-image"
                    (CocktailIdBody cocktail_id)) ;;;
        v' <- match out with
              | Responded true image_url =>
                  if truthy image_url then
                    Log.emit (AssignImagePath (js_or image_url "")) ;;;
                    Log.ret
                      {| cocktail := set_image_path image_url (cocktail v);
                         state := setShowDefaultImage false
                                    (setGeneratedImage image_url st) |}
                  else
                    Log.ret
                      {| cocktail := cocktail v;
                         state := setShowDefaultImage true
                                    (setImageError
                                       (Some "Génération d'images temporairement indisponible. Le service DynaPictures n'est pas configuré.")
                                       st) |}
              | Responded false _ =>
                  Log.ret
                    {| cocktail := cocktail v;
                       state := on_error "Erreur lors de la génération de l'image" st |}
              | Rejected message =>
                  Log.ret {| cocktail := cocktail v;
                             state := on_error message st |}
              end ;;
        Log.ret {| cocktail := cocktail v';
                   state := setIsGeneratingImage false (state v') |}
  | None => Log.ret v
  end.

Definition useEffect (source : option string) (v : View) (out : FetchOutcome)
  : Log.M Action View :=
  if truthy (image_path (cocktail v)) then
    Log.ret {| cocktail := cocktail v;
               state := setShowDefaultImage false
                          (setGeneratedImage (image_path (cocktail v)) (state v)) |}
  else if (source_of source =? "generator")
          && truthy (image_prompt (cocktail v))
          && negb (truthy (generatedImage (state v)))
  then generateImage v out
  else
    Log.ret {| cocktail := cocktail v;
               state := setShowDefaultImage true (state v) |}.

(** The test under which the effect calls [generateImage] and
    [generateImage] sends its request. *)
Definition will_generate (source : option string) (v : View) : bool :=
  negb (truthy (image_path (cocktail v)))
  && (source_of source =? "generator")
  && truthy (image_prompt (cocktail v))
  && negb (truthy (generatedImage (state v)))
  && truthy_num (id (cocktail v)).

(** The life of a cocktail object in the views: the component is mounted
    on it (a new instance, the effect runs), or the effect runs again in
    the same instance; [out] is how the request ends if one is sent. *)
Inductive Step : Type :=
| Mount (source : option string) (out : FetchOutcome)
| Rerun (source : option string) (out : FetchOutcome).

Definition step (v : View) (s : Step) : Log.M Action View :=
  match s with
  | Mount source out => useEffect source (mount (cocktail v)) out
  | Rerun source out => useEffect source v out
  end.

Fixpoint run (v : View) (steps : list Step) : Log.M Action View :=
  match steps with
  | [] => Log.ret v
  | s :: rest => v' <- step v s ;; run v' rest
  end.

End CocktailDetail.

(** ** Configurations used in the examples *)

Definition no_services : ImageServices :=
  {| stability_service := None; dynapictures_service := None |}.

Definition stability_down : StabilityAIService :=
  {| is_available := false;
     stability_generate_cocktail_image := fun _ => Some "/cocktail_123.jpeg" |}.

Definition stability_failing : StabilityAIService :=
  {| is_available := true;
     stability_generate_cocktail_image := fun _ => None |}.

Definition stability_up : StabilityAIService :=
  {| is_available := true;
     stability_generate_cocktail_image := fun _ => Some "/cocktail_123.jpeg" |}.

Definition dynapictures_local : DynaPicturesService :=
  {| dynapictures_generate_cocktail_image := fun _ => Some "/img/42.png" |}.

Definition dynapictures_failing : DynaPicturesService :=
  {| dynapictures_generate_cocktail_image := fun _ => None |}.

(** Stability AI answers but fails, the local service succeeds. *)
Definition cloud_fails_local_succeeds : ImageServices :=
  {| stability_service := Some stability_failing;
     dynapictures_service := Some dynapictures_local |}.

(** Stability AI has no key, the local service fails. *)
Definition nothing_works : ImageServices :=
  {| stability_service := Some stability_down;
     dynapictures_service := Some dynapictures_failing |}.

(** A provider without a key, one with the placeholder of the template,
    and one with a key, which answers with a reference. *)
Definition provider_without_key : ProviderAdapter :=
  {| provider_name := "Stability AI (SD3)";
     api_key := "";
     api_key_placeholder := "your-stability-api-key-here";
     endpoint := "https://api.stability.ai/v2beta/stable-image/generate/sd3";
     provider := fun _ => Status 200 (Some "/cocktail_123.jpeg") |}.

Definition provider_with_placeholder : ProviderAdapter :=
  {| provider_name := "DynaPictures";
     api_key := "your-dynapictures-api-key-here";
     api_key_placeholder := "your-dynapictures-api-key-here";
     endpoint := "https://api.dynapictures.com/designs";
     provider := fun _ => Status 200 (Some "/img/42.png") |}.

Definition provider_with_key : ProviderAdapter :=
  {| provider_name := "Stability AI (SD3)";
     api_key := "sk-0123456789";
     api_key_placeholder := "your-stability-api-key-here";
     endpoint := "https://api.stability.ai/v2beta/stable-image/generate/sd3";
     provider := fun _ => Status 200 (Some "/cocktail_123.jpeg") |}.

(** ** Numbers in template strings

    A number inside a template literal is written in decimal, a missing
    id as [undefined]. *)

Definition show_Z (z : Z) : string := NilZero.string_of_int (Z.to_int z).

Definition show_nat (n : nat) : string := NilZero.string_of_uint (Nat.to_uint n).

Definition show_id (i : option Z) : string :=
  match i with
  | Some z => show_Z z
  | None => "undefined"
  end.

(** [a === b] on ids. *)
Definition id_eqb (a b : option Z) : bool :=
  match a, b with
  | Some x, Some y => (x =? y)%Z
  | None, None => true
  | _, _ => false
  end.

(** ** The history of cocktails (CocktailHistory.jsx) *)

Module CocktailHistory.

(** The [pagination] object of the list answer. *)
Record Pagination : Type := {
  page : Z;
  per_page : Z;
  total : Z;
  pages : Z;
  has_next : bool;
  has_prev : bool
}.

(** The [useState] cells; [perPage] is the constant 6.  [deletingId] is
    [null] ([None]) or the id given to [deleteCocktail]. *)
Record State : Type := {
  cocktails : list Cocktail;
  pagination : option Pagination;
  currentPage : Z;
  isLoading : bool;
  error : string;
  deletingId : option (option Z)
}.

Definition perPage : Z := 6.

Definition initial_state : State :=
  {| cocktails := []; pagination := None; currentPage := 1;
     isLoading := false; error := ""; deletingId := None |}.

Inductive Request : Type :=
| GET (url : string)
| DELETE (url : string).

(** How the list request ends: with an error that carries a message
    ([fetch] or [response.json()] throws), or with a response, its [ok],
    [status], [statusText] and the fields [cocktails] and [pagination] of
    its body. *)
Inductive ListOutcome : Type :=
| ListRejected (message : string)
| ListResponded (ok : bool) (status : nat) (statusText : string)
    (data_cocktails : option (list Cocktail))
    (data_pagination : option Pagination).

(** How the delete request ends: with an error, or with a body and its
    fields [success] and [error]. *)
Inductive DeleteOutcome : Type :=
| DeleteRejected
| DeleteResponded (success : bool) (data_error : option string).

Definition list_url (p : Z) : string :=
  "http://localhost:5002/api/cocktails?page=" ++ show_Z p
  ++ "&per_page=" ++ show_Z perPage.

Definition delete_url (cocktailId : option Z) : string :=
  "http://localhost:5002/api/cocktails/" ++ show_id cocktailId.

(** The [catch] block of [fetchCocktails]. *)
Definition load_error (message : string) : string :=
  if contains "Failed to fetch" message
  then "Impossible de se connecter au serveur. Vérifiez que le backend est démarré."
  else "Erreur lors du chargement: " ++ message.

Definition fetchCocktails (st : State) (p : Z) (out : ListOutcome)
  : Log.M Request State :=
  Log.emit (GET (list_url p)) ;;;
  Log.ret
    match out with
    | ListResponded true _ _ data_cocktails data_pagination =>
        {| cocktails := match data_cocktails with Some l => l | None => [] end;
           pagination := data_pagination;
           currentPage := p;
           isLoading := false;
           error := "";
           deletingId := deletingId st |}
    | ListResponded false status statusText _ _ =>
        {| cocktails := cocktails st;
           pagination := pagination st;
           currentPage := currentPage st;
           isLoading := false;
           error := load_error ("Erreur " ++ show_nat status ++ ": " ++ statusText);
           deletingId := deletingId st |}
    | ListRejected message =>
        {| cocktails := cocktails st;
           pagination := pagination st;
           currentPage := currentPage st;
           isLoading := false;
           error := load_error message;
           deletingId := deletingId st |}
    end.

Definition handlePageChange (st : State) (p : Z) (out : ListOutcome)
  : Log.M Request State :=
  fetchCocktails st p out.

Definition setError (e : string) (st : State) : State :=
  {| cocktails := cocktails st; pagination := pagination st;
     currentPage := currentPage st; isLoading := isLoading st;
     error := e; deletingId := deletingId st |}.

Definition setCocktails (l : list Cocktail) (st : State) : State :=
  {| cocktails := l; pagination := pagination st;
     currentPage := currentPage st; isLoading := isLoading st;
     error := error st; deletingId := deletingId st |}.

Definition setDeletingId (d : option (option Z)) (st : State) : State :=
  {| cocktails := cocktails st; pagination := pagination st;
     currentPage := currentPage st; isLoading := isLoading st;
     error := error st; deletingId := d |}.

(** [deleteCocktail]: [confirmed] is the answer to [window.confirm],
    [out] the end of the delete request, and [reload] the end of the list
    request for the previous page, if it is sent.  The test on
    [cocktails.length] and [currentPage] reads the state in which the
    handler was created. *)
Definition deleteCocktail (st : State) (cocktailId : option Z)
  (confirmed : bool) (out : DeleteOutcome) (reload : ListOutcome)
  : Log.M Request State :=
  if negb confirmed then Log.ret st
  else
    let st0 := setDeletingId (Some cocktailId) st in
    Log.emit (DELETE (delete_url cocktailId)) ;;;
    st' <- match out with
           | DeleteResponded true _ =>
               let st1 :=
                 setCocktails
                   (filter (fun c => negb (id_eqb (id c) cocktailId))
                      (cocktails st0)) st0 in
               if (List.length (cocktails st) =? 1)%nat && (1 <? currentPage st)%Z
               then fetchCocktails st1 (currentPage st - 1) reload
               else Log.ret st1
           | DeleteResponded false data_error =>
               Log.ret (setError (js_or data_error "Erreur lors de la suppression") st0)
           | DeleteRejected =>
               Log.ret (setError "Erreur de connexion lors de la suppression" st0)
           end ;;
    Log.ret (setDeletingId None st').

(** The four returns of the component. *)
Inductive Screen : Type :=
| LoadingScreen
| ErrorScreen (message : string)
| EmptyScreen
| GridScreen.

Definition screen (st : State) : Screen :=
  if isLoading st && (List.length (cocktails st) =? 0)%nat then LoadingScreen
  else if negb (error st =? "") then ErrorScreen (error st)
  else if (List.length (cocktails st) =? 0)%nat then EmptyScreen
  else GridScreen.

(** [pagination?.total || 0] and the line under the title. *)
Definition total_shown (st : State) : Z :=
  match pagination st with
  | Some p => total p
  | None => 0
  end.

Definition plural (n : Z) : string := if (1 <? n)%Z then "s" else "".

Definition count_line (st : State) : string :=
  show_Z (total_shown st) ++ " cocktail" ++ plural (total_shown st)
  ++ " créé" ++ plural (total_shown st).

(** A card: the ingredients it lists, [ingredients.slice(0, 2)], and the
    number it announces under them,
    [ingredients.length > 3 && ... ingredients.length - 2 ...]. *)
Definition listed_ingredients (c : Cocktail) : list string :=
  firstn 2 (ingredients c).

Definition announced_ingredients (c : Cocktail) : option nat :=
  if (3 <? List.length (ingredients c))%nat
  then Some (List.length (ingredients c) - 2)
  else None.

Definition announcement (n : nat) : string :=
  "+" ++ show_nat n ++ " autre" ++ (if (1 <? n)%nat then "s" else "")
  ++ " ingrédient" ++ (if (1 <? n)%nat then "s" else "") ++ "...".

(** The pagination bar, rendered when [pagination && pagination.pages > 1]:
    whether "Précédent" and "Suivant" are disabled, and the page buttons
    [Array.from({ length: pagination.pages }, (_, i) => i + 1)]. *)
Record PageButton : Type := {
  button_page : Z;
  button_current : bool;
  button_disabled : bool
}.

Record Bar : Type := {
  previous_disabled : bool;
  buttons : list PageButton;
  next_disabled : bool
}.

Definition pagination_bar (st : State) : option Bar :=
  match pagination st with
  | Some p =>
      if (1 <? pages p)%Z then
        Some {| previous_disabled := negb (has_prev p) || isLoading st;
                buttons :=
                  map (fun i => {| button_page := Z.of_nat i;
                                   button_current := (Z.of_nat i =? currentPage st)%Z;
                                   button_disabled := isLoading st |})
                    (seq 1 (Z.to_nat (pages p)));
                next_disabled := negb (has_next p) || isLoading st |}
      else None
  | None => None
  end.

(** What the user and the parent can do, with the end of the requests
    that follow: the list is loaded at mount and whenever [refreshTrigger]
    changes; "Réessayer" loads the current page again. *)
Inductive Event : Type :=
| Refresh (out : ListOutcome)
| Retry (out : ListOutcome)
| Previous (out : ListOutcome)
| GoTo (p : Z) (out : ListOutcome)
| Next (out : ListOutcome)
| Delete (cocktailId : option Z) (confirmed : bool) (out : DeleteOutcome)
    (reload : ListOutcome).

Definition handle (st : State) (e : Event) : Log.M Request State :=
  match e with
  | Refresh out => fetchCocktails st 1 out
  | Retry out => fetchCocktails st (currentPage st) out
  | Previous out => handlePageChange st (currentPage st - 1) out
  | GoTo p out => handlePageChange st p out
  | Next out => handlePageChange st (currentPage st + 1) out
  | Delete cocktailId confirmed out reload =>
      deleteCocktail st cocktailId confirmed out reload
  end.

Fixpoint run (st : State) (events : list Event) : Log.M Request State :=
  match events with
  | [] => Log.ret st
  | e :: rest => st' <- handle st e ;; run st' rest
  end.

End CocktailHistory.

(** ** [String.prototype.trim]

    Strings are the UTF-8 bytes of the text.  The white space that [trim]
    removes is the [WhiteSpace] and [LineTerminator] of the language:
    TAB, LF, VT, FF, CR and SP in one byte; U+00A0 in two; U+1680,
    U+2000 to U+200A, U+2028, U+2029, U+202F, U+205F, U+3000 and U+FEFF
    in three. *)

Definition white_space_1 (a : ascii) : bool :=
  let x := nat_of_ascii a in
  ((9 <=? x) && (x <=? 13) || (x =? 32))%nat.

Definition white_space_2 (a b : ascii) : bool :=
  ((nat_of_ascii a =? 194) && (nat_of_ascii b =? 160))%nat.

Definition white_space_3 (a b c : ascii) : bool :=
  let x := nat_of_ascii a in
  let y := nat_of_ascii b in
  let z := nat_of_ascii c in
  (((x =? 225) && (y =? 154) && (z =? 128))
   || ((x =? 226) && (y =? 128)
       && ((128 <=? z) && (z <=? 138) || (z =? 168) || (z =? 169) || (z =? 175)))
   || ((x =? 226) && (y =? 129) && (z =? 159))
   || ((x =? 227) && (y =? 128) && (z =? 128))
   || ((x =? 239) && (y =? 187) && (z =? 191)))%nat.

Fixpoint trimStart (s : string) : string :=
  match s with
  | EmptyString => EmptyString
  | String a r1 =>
      if white_space_1 a then trimStart r1
      else
        match r1 with
        | EmptyString => s
        | String b r2 =>
            if white_space_2 a b then trimStart r2
            else
              match r2 with
              | EmptyString => s
              | String c r3 =>
                  if white_space_3 a b c then trimStart r3 else s
              end
        end
  end.

(** The string without its longest suffix of white space: the first
    position from which only white space follows ends the result. *)
Fixpoint trimEnd (s : string) : string :=
  match s with
  | EmptyString => EmptyString
  | String a rest =>
      if trimStart s =? "" then EmptyString else String a (trimEnd rest)
  end.

Definition trim (s : string) : string := trimEnd (trimStart s).

(** Whether a string starts with a white space character. *)
Definition starts_with_white_space (s : string) : bool :=
  match s with
  | EmptyString => false
  | String a r1 =>
      white_space_1 a
      || match r1 with
         | EmptyString => false
         | String b r2 =>
             white_space_2 a b
             || match r2 with
                | EmptyString => false
                | String c _ => white_space_3 a b c
                end
         end
  end.

(** ** The generator of cocktails (both versions of CocktailGenerator) *)

Module CocktailGenerator.

Record State : Type := {
  prompt : string;
  isLoading : bool;
  generatedCocktail : option Cocktail;
  error : string
}.

Definition initial_state : State :=
  {| prompt := ""; isLoading := false; generatedCocktail := None; error := "" |}.

(** What a submission does to the outside: the POST request with the
    [prompt] of its body, and the call of [onCocktailGenerated]. *)
Inductive Action : Type :=
| PostGenerate (url : string) (body_prompt : string)
| OnCocktailGenerated.

(** How the request ends: with an error that carries a message, or with
    a response, its [ok], [status], [statusText] and the fields [success]
    and [cocktail] of its body. *)
Inductive GenerateOutcome : Type :=
| GenerateRejected (message : string)
| GenerateResponded (ok : bool) (status : nat) (statusText : string)
    (data_success : bool) (data_cocktail : option Cocktail).

(** The [catch] block. *)
Definition generation_error (message : string) : string :=
  if contains "Failed to fetch" message
  then "Impossible de se connecter au serveur. Vérifiez que le backend est démarré."
  else "Erreur lors de la génération: " ++ message.

(** [handleSubmit]; [has_callback] tells whether the parent gave
    [onCocktailGenerated]. *)
Definition handleSubmit (has_callback : bool) (st : State)
  (out : GenerateOutcome) : Log.M Action State :=
  if trim (prompt st) =? "" then
    Log.ret {| prompt := prompt st; isLoading := isLoading st;
               generatedCocktail := generatedCocktail st;
               error := "Veuillez saisir une description pour votre cocktail" |}
  else
    Log.emit (PostGenerate "http://localhost:5002/api/cocktails/generate"
                (trim (prompt st))) ;;;
    let failed (message : string) : State :=
      {| prompt := prompt st; isLoading := false;
         generatedCocktail := None;
         error := generation_error message |} in
    match out with
    | GenerateResponded true _ _ true (Some c) =>
        (if has_callback then Log.emit OnCocktailGenerated else Log.ret tt) ;;;
        Log.ret {| prompt := ""; isLoading := false;
                   generatedCocktail := Some c; error := "" |}
    | GenerateResponded true _ _ _ _ =>
        Log.ret (failed "Réponse invalide du serveur")
    | GenerateResponded false status statusText _ _ =>
        Log.ret (failed ("Erreur " ++ show_nat status ++ ": " ++ statusText))
    | GenerateRejected message => Log.ret (failed message)
    end.

Definition handleNewCocktail (st : State) : State :=
  {| prompt := prompt st; isLoading := isLoading st;
     generatedCocktail := None; error := "" |}.

(** [onChange] of the text area. *)
Definition setPrompt (value : string) (st : State) : State :=
  {| prompt := value; isLoading := isLoading st;
     generatedCocktail := generatedCocktail st; error := error st |}.

(** [disabled] of the submit button. *)
Definition submit_disabled (st : State) : bool :=
  isLoading st || (trim (prompt st) =? "").

End CocktailGenerator.

(** ** The application shell (App.jsx) *)

Module App.

Record State : Type := {
  activeTab : string;
  selectedCocktail : option Cocktail;
  refreshHistory : Z
}.

Definition initial_state : State :=
  {| activeTab := "generator"; selectedCocktail := None; refreshHistory := 0 |}.

(** The two buttons of the navigation, [handleViewCocktail] (a card of the
    history is clicked), [onBack] of the detail view, and
    [handleCocktailGenerated]. *)
Inductive Event : Type :=
| ClickGenerator
| ClickHistory
| ViewCocktail (c : Cocktail)
| Back
| CocktailGenerated.

Definition handle (st : State) (e : Event) : State :=
  match e with
  | ClickGenerator =>
      {| activeTab := "generator"; selectedCocktail := selectedCocktail st;
         refreshHistory := refreshHistory st |}
  | ClickHistory =>
      {| activeTab := "history"; selectedCocktail := selectedCocktail st;
         refreshHistory := refreshHistory st |}
  | ViewCocktail c =>
      {| activeTab := "detail"; selectedCocktail := Some c;
         refreshHistory := refreshHistory st |}
  | Back =>
      {| activeTab := "history"; selectedCocktail := selectedCocktail st;
         refreshHistory := refreshHistory st |}
  | CocktailGenerated =>
      {| activeTab := activeTab st; selectedCocktail := selectedCocktail st;
         refreshHistory := (refreshHistory st + 1)%Z |}
  end.

Definition run (st : State) (events : list Event) : State :=
  fold_left handle events st.

(** The children of [<main>]: each of the three conditions renders its
    component or nothing. *)
Inductive Child : Type :=
| Generator
| History (refreshTrigger : Z)
| Detail (c : Cocktail) (source : option string).

Definition main (st : State) : list Child :=
  ((if activeTab st =? "generator" then [Generator] else [])
   ++ (if activeTab st =? "history" then [History (refreshHistory st)] else [])
   ++ (if activeTab st =? "detail"
       then match selectedCocktail st with
            | Some c => [Detail c None]
            | None => []
            end
       else []))%list.

(** Which button of the navigation is highlighted. *)
Definition highlighted (st : State) : list string :=
  ((if activeTab st =? "generator" then ["Générateur"] else [])
   ++ (if activeTab st =? "history" then ["Historique"] else []))%list.

End App.

(** ** The start and stop scripts (docker-start.sh, docker-stop.sh) *)

Module Scripts.

(** The two ways of calling Compose: the [docker-compose] program and the
    [docker compose] plugin. *)
Inductive Compose : Type := Hyphen | Plugin.

(** The command lines of the two scripts. *)
Inductive Command : Type :=
| ComposeDown (via : Compose) (volumes remove_orphans : bool)
| ComposeKill (via : Compose)
| ComposeBuildNoCache (via : Compose)
| ComposeUpDetached (via : Compose)
| RemoveImages            (* docker rmi $(docker images mns_eval* -q) *)
| SystemPrune             (* docker system prune -f *)
| ListContainers (with_status : bool)   (* docker ps --filter name=mixologue *)
| CopyTemplate            (* cp .env.docker .env *)
| SourceDotenv            (* source .env *)
| Sleep (seconds : nat)
| Curl (url : string).    (* curl -f url *)

(** The four printing functions: [print_status], [print_success],
    [print_warning], [print_error]. *)
Inductive Level : Type := Status | Success | Warning | Error.

(** What a run of a script does, in order: a command it runs, a message
    of [print_status], [print_success], [print_warning] or [print_error],
    a line of [echo]. *)
Inductive Output : Type :=
| Run (c : Command)
| Message (level : Level) (text : string)
| Echo (text : string).

(** The three variables that the start script tests, with the values
    they have once [source .env] has run. *)
Record Vars : Type := {
  SECRET_KEY : string;
  MISTRAL_API_KEY : string;
  DYNAPICTURES_API_KEY : string
}.

(** The machine on which a script runs: what is installed, how each
    command that is run ends (its exit status), the two files, and what
    the final checks see. *)
Record Host : Type := {
  has_docker : bool;            (* command -v docker *)
  has_docker_compose : bool;    (* command -v docker-compose *)
  has_compose_plugin : bool;    (* docker compose version *)
  docker_running : bool;        (* docker info *)
  exit_status : Command -> nat;
  dotenv : option Vars;         (* when .env exists: the values once it is read *)
  dotenv_docker : option Vars;  (* when .env.docker exists: the values once its copy is read *)
  running_containers : nat      (* lines counted after docker ps *)
}.

Definition uses_docker_compose (c : Command) : bool :=
  match c with
  | ComposeDown Hyphen _ _ | ComposeKill Hyphen
  | ComposeBuildNoCache Hyphen | ComposeUpDetached Hyphen => true
  | _ => false
  end.

Definition uses_docker (c : Command) : bool :=
  match c with
  | ComposeDown Plugin _ _ | ComposeKill Plugin
  | ComposeBuildNoCache Plugin | ComposeUpDetached Plugin
  | RemoveImages | SystemPrune | ListContainers _ => true
  | _ => false
  end.

(** The exit status of a command on a host: 127 when its program is not
    installed. *)
Definition status_of (h : Host) (c : Command) : nat :=
  if uses_docker_compose c && negb (has_docker_compose h) then 127
  else if uses_docker c && negb (has_docker h) then 127
  else exit_status h c.

(** A script under [set -e]: it goes on with a value, or it has exited
    with a status. *)
Inductive Step (A : Type) : Type :=
| Continue (a : A)
| Exit (status : nat).
Arguments Continue {A} a.
Arguments Exit {A} status.

Definition Sh (A : Type) : Type := (list Output * Step A)%type.

Definition ret {A} (a : A) : Sh A := ([], Continue a).

Definition bind {A B} (c : Sh A) (k : A -> Sh B) : Sh B :=
  match c with
  | (l1, Continue a) => let (l2, r) := k a in ((l1 ++ l2)%list, r)
  | (l1, Exit s) => (l1, Exit s)
  end.

Definition print (level : Level) (text : string) : Sh unit :=
  ([Message level text], Continue tt).

Definition echo (text : string) : Sh unit := ([Echo text], Continue tt).

Definition exit {A} (status : nat) : Sh A := ([], Exit status).

(** A simple command: under [set -e] a status other than 0 ends the
    script with that status. *)
Definition run (h : Host) (c : Command) : Sh unit :=
  ([Run c], match status_of h c with 0 => Continue tt | s => Exit s end).

(** [command || true], and a command used as the condition of an [if]:
    the script goes on whatever the status, which is returned. *)
Definition attempt (h : Host) (c : Command) : Sh nat :=
  ([Run c], Continue (status_of h c)).

Definition outputs {A} (r : Sh A) : list Output := fst r.

(** The status with which the script ends. *)
Definition final_status (r : Sh unit) : nat :=
  match snd r with
  | Continue _ => 0
  | Exit s => s
  end.

Definition commands {A} (r : Sh A) : list Command :=
  flat_map (fun o => match o with Run c => [c] | _ => [] end) (outputs r).

(** Whether the script went on, or the status with which it exited. *)
Definition control {A} (r : Sh A) : option nat :=
  match snd r with
  | Continue _ => None
  | Exit s => Some s
  end.

Definition is_some {A} (o : option A) : bool :=
  match o with Some _ => true | None => false end.

(** Two hosts that differ at most in the values of the three variables:
    the same programs, the same files present, and every command,
    [source .env] included, ends with the same status on both. *)
Definition same_but_values (h h' : Host) : Prop :=
  has_docker h = has_docker h'
  /\ has_docker_compose h = has_docker_compose h'
  /\ has_compose_plugin h = has_compose_plugin h'
  /\ docker_running h = docker_running h'
  /\ (forall c, exit_status h c = exit_status h' c)
  /\ is_some (dotenv h) = is_some (dotenv h')
  /\ is_some (dotenv_docker h) = is_some (dotenv_docker h').

(** The same host on which every [compose down] ends with the status
    [down] and every [curl] with the status [curl]. *)
Definition with_statuses (down curl : nat) (h : Host) : Host :=
  {| has_docker := has_docker h;
     has_docker_compose := has_docker_compose h;
     has_compose_plugin := has_compose_plugin h;
     docker_running := docker_running h;
     exit_status := fun c => match c with
                             | ComposeDown _ _ _ => down
                             | Curl _ => curl
                             | _ => exit_status h c
                             end;
     dotenv := dotenv h;
     dotenv_docker := dotenv_docker h;
     running_containers := running_containers h |}.


(** The choice made at each Compose call:
    [if command -v docker-compose ...; then docker-compose ...
     else docker compose ... fi]. *)
Definition compose (h : Host) : Compose :=
  if has_docker_compose h then Hyphen else Plugin.

End Scripts.

Notation "x <~ c ;; k" := (Scripts.bind c (fun x => k))
  (at level 61, c at next level, right associativity).
Notation "c ;;, k" := (Scripts.bind c (fun _ => k))
  (at level 61, right associativity).

Module DockerStop.
Import Scripts.

Definition docker_stop (h : Host) (arg : string) : Sh unit :=
  echo "🛑 Arrêt de Le Mixologue Augmenté" ;;,
  echo "=================================" ;;,
  (if negb (has_docker_compose h) && negb (has_compose_plugin h)
   then print Error "Docker Compose n'est pas installé." ;;, exit 1
   else ret tt) ;;,
  (if arg =? "--clean" then
     print Status "Arrêt et nettoyage complet des services..." ;;,
     run h (ComposeDown (compose h) true true) ;;,
     print Status "Suppression des images Docker..." ;;,
     attempt h RemoveImages ;;,
     print Status "Nettoyage du système Docker..." ;;,
     run h SystemPrune ;;,
     print Success "Nettoyage complet terminé"
   else if arg =? "--volumes" then
     print Status "Arrêt des services avec suppression des volumes..." ;;,
     run h (ComposeDown (compose h) true false) ;;,
     print Warning "Les données de la base de données ont été supprimées"
   else if arg =? "--force" then
     print Status "Arrêt forcé des services..." ;;,
     run h (ComposeKill (compose h)) ;;,
     run h (ComposeDown (compose h) false true) ;;,
     print Success "Arrêt forcé terminé"
   else
     print Status "Arrêt normal des services..." ;;,
     run h (ComposeDown (compose h) false false) ;;,
     print Success "Services arrêtés") ;;,
  attempt h (ListContainers false) ;;,
  (if (running_containers h =? 0)%nat
   then print Success "✅ Tous les conteneurs Le Mixologue Augmenté sont arrêtés"
   else
     print Warning "⚠️  Certains conteneurs sont encore en cours d'exécution:" ;;,
     run h (ListContainers true)) ;;,
  echo "" ;;,
  echo "Options disponibles:" ;;,
  echo "  ./docker-stop.sh          - Arrêt normal" ;;,
  echo "  ./docker-stop.sh --clean  - Arrêt + nettoyage complet" ;;,
  echo "  ./docker-stop.sh --volumes - Arrêt + suppression des volumes" ;;,
  echo "  ./docker-stop.sh --force   - Arrêt forcé" ;;,
  echo "" ;;,
  print Status "Pour redémarrer: ./docker-start.sh" ;;,
  echo "=================================".

End DockerStop.

Module DockerStart.
Import Scripts.

Definition default_secret_key : string := "your-secret-key-change-in-production-docker".
Definition mistral_placeholder : string := "your-mistral-api-key-here".
Definition dynapictures_placeholder : string := "your-dynapictures-api-key-here".

(** The part that prepares [.env] and returns the variables that
    [source .env] defines. *)
Definition prepare_dotenv (h : Host) : Sh Vars :=
  match dotenv h with
  | Some vars => ret vars
  | None =>
      print Warning "Fichier .env non trouvé. Création à partir du template..." ;;,
      match dotenv_docker h with
      | Some vars =>
          run h CopyTemplate ;;,
          print Warning "Fichier .env créé. ATTENTION: Modifiez les variables d'environnement avant la production!" ;;,
          print Warning "Notamment: SECRET_KEY, MISTRAL_API_KEY, DYNAPICTURES_API_KEY" ;;,
          ret vars
      | None =>
          print Error "Template .env.docker non trouvé. Impossible de créer le fichier .env" ;;, exit 1
      end
  end.

(** The line with which the script announces that the application runs. *)
Definition started : Output :=
  Message Success "🎉 Le Mixologue Augmenté est démarré!".

Definition docker_start (h : Host) (arg : string) : Sh unit :=
  echo "🍸 Démarrage de Le Mixologue Augmenté avec Docker" ;;,
  echo "=================================================" ;;,
  print Status "Vérification des prérequis..." ;;,
  (if negb (has_docker h)
   then print Error "Docker n'est pas installé. Veuillez l'installer d'abord." ;;, exit 1
   else ret tt) ;;,
  (if negb (has_docker_compose h) && negb (has_compose_plugin h)
   then print Error "Docker Compose n'est pas installé. Veuillez l'installer d'abord." ;;, exit 1
   else ret tt) ;;,
  (if negb (docker_running h)
   then print Error "Docker n'est pas en cours d'exécution. Veuillez le démarrer." ;;, exit 1
   else ret tt) ;;,
  print Success "Docker est installé et en cours d'exécution" ;;,
  vars <~ prepare_dotenv h ;;
  print Status "Vérification de la configuration..." ;;,
  run h SourceDotenv ;;,
  (if SECRET_KEY vars =? default_secret_key
   then print Warning "SECRET_KEY utilise la valeur par défaut. Changez-la en production!"
   else ret tt) ;;,
  (if key_configured (MISTRAL_API_KEY vars) mistral_placeholder
   then ret tt
   else print Warning "MISTRAL_API_KEY n'est pas configurée. La génération de cocktails ne fonctionnera pas.") ;;,
  (if key_configured (DYNAPICTURES_API_KEY vars) dynapictures_placeholder
   then ret tt
   else print Warning "DYNAPICTURES_API_KEY n'est pas configurée. La génération d'images ne fonctionnera pas.") ;;,
  (if arg =? "--clean" then
     print Status "Nettoyage des anciens conteneurs..." ;;,
     attempt h (ComposeDown Hyphen true true) ;;,
     run h SystemPrune
   else ret tt) ;;,
  print Status "Construction des images Docker..." ;;,
  run h (ComposeBuildNoCache (compose h)) ;;,
  print Status "Démarrage des services..." ;;,
  run h (ComposeUpDetached (compose h)) ;;,
  print Status "Attente du démarrage des services..." ;;,
  run h (Sleep 10) ;;,
  print Status "Vérification de l'état des services..." ;;,
  backend <~ attempt h (Curl "http://localhost:5001/health") ;;
  (if (backend =? 0)%nat
   then print Success "Backend démarré avec succès (http://localhost:5001)"
   else print Error "Le backend ne répond pas sur http://localhost:5001/health") ;;,
  frontend <~ attempt h (Curl "http://localhost:80") ;;
  (if (frontend =? 0)%nat
   then print Success "Frontend démarré avec succès (http://localhost:80)"
   else print Error "Le frontend ne répond pas sur http://localhost:80") ;;,
  echo "" ;;,
  print Success "🎉 Le Mixologue Augmenté est démarré!" ;;,
  echo "" ;;,
  echo "📱 Application web: http://localhost:80" ;;,
  echo "🔧 API Backend: http://localhost:5001" ;;,
  echo "❤️  Health check: http://localhost:5001/health" ;;,
  echo "" ;;,
  print Status "Pour voir les logs: docker-compose logs -f" ;;,
  print Status "Pour arrêter: docker-compose down" ;;,
  print Status "Pour redémarrer proprement: ./docker-start.sh --clean" ;;,
  echo "" ;;,
  print Warning "N'oubliez pas de configurer vos clés API dans le fichier .env!" ;;,
  echo "=================================================".

End DockerStart.

(** A machine with Docker running and the Compose plugin only, on which
    every command that can be run succeeds, with a filled [.env]. *)
Definition plugin_only_host : Scripts.Host :=
  {| Scripts.has_docker := true;
     Scripts.has_docker_compose := false;
     Scripts.has_compose_plugin := true;
     Scripts.docker_running := true;
     Scripts.exit_status := fun _ => 0;
     Scripts.dotenv :=
       Some {| Scripts.SECRET_KEY := "0f3c";
               Scripts.MISTRAL_API_KEY := "mk-123";
               Scripts.DYNAPICTURES_API_KEY := "" |};
     Scripts.dotenv_docker := None;
     Scripts.running_containers := 0 |}.

(** The same machine with the values of the template left in [.env]. *)
Definition plugin_only_host_unconfigured : Scripts.Host :=
  {| Scripts.has_docker := true;
     Scripts.has_docker_compose := false;
     Scripts.has_compose_plugin := true;
     Scripts.docker_running := true;
     Scripts.exit_status := fun _ => 0;
     Scripts.dotenv :=
       Some {| Scripts.SECRET_KEY := DockerStart.default_secret_key;
               Scripts.MISTRAL_API_KEY := DockerStart.mistral_placeholder;
               Scripts.DYNAPICTURES_API_KEY := "" |};
     Scripts.dotenv_docker := None;
     Scripts.running_containers := 0 |}.

(** The same machine when nothing answers the health checks. *)
Definition plugin_only_host_unhealthy : Scripts.Host :=
  Scripts.with_statuses 0 7 plugin_only_host.

(** The cocktail of the last card clicked, the number of cocktails
    generated. *)
Fixpoint last_viewed (events : list App.Event) (before : option Cocktail)
  : option Cocktail :=
  match events with
  | [] => before
  | App.ViewCocktail c :: rest => last_viewed rest (Some c)
  | _ :: rest => last_viewed rest before
  end.

Definition generated_count (events : list App.Event) : nat :=
  List.length (filter (fun e => match e with
                                | App.CocktailGenerated => true
                                | _ => false
                                end) events).

(** A history on its second page with a single card, and one on its first
    page with two cards. *)
Definition history_last_card : CocktailHistory.State :=
  {| CocktailHistory.cocktails := [tropical_sunset];
     CocktailHistory.pagination :=
       Some {| CocktailHistory.page := 2; CocktailHistory.per_page := 6;
               CocktailHistory.total := 7; CocktailHistory.pages := 2;
               CocktailHistory.has_next := false;
               CocktailHistory.has_prev := true |};
     CocktailHistory.currentPage := 2;
     CocktailHistory.isLoading := false;
     CocktailHistory.error := "";
     CocktailHistory.deletingId := None |}.

Definition history_two_cards : CocktailHistory.State :=
  {| CocktailHistory.cocktails := [tropical_sunset_again; tropical_sunset];
     CocktailHistory.pagination :=
       Some {| CocktailHistory.page := 1; CocktailHistory.per_page := 6;
               CocktailHistory.total := 2; CocktailHistory.pages := 1;
               CocktailHistory.has_next := false;
               CocktailHistory.has_prev := false |};
     CocktailHistory.currentPage := 1;
     CocktailHistory.isLoading := false;
     CocktailHistory.error := "";
     CocktailHistory.deletingId := None |}.

(* ===================================================================== *)
(** * Part II: properties *)
(* ===================================================================== *)

(** ** The selection of the image service *)

Lemma truthy_some (r : option string) :
  truthy r = true -> exists s, r = Some s /\ s <> "".
Proof.
  destruct r as [s|]; simpl; [|discriminate].
  intros H. exists s. split; [reflexivity|].
  intros ->. discriminate.
Qed.

(** [generate_image] is the fallback chain run on the services that are
    present: same value, same calls. *)
Lemma generate_image_refines (self : ImageServices) (c : Cocktail) :
  generate_image self c = spec_generateImage (adapters self) c.
Proof.
  destruct self as [[st|] [dp|]];
    unfold generate_image, try_stability, try_dynapictures, adapters; cbn.
  - destruct (is_available st); cbn.
    + destruct (stability_generate_cocktail_image st c) as [r|]; cbn.
      * destruct (r =? ""); cbn.
        -- destruct (dynapictures_generate_cocktail_image dp c) as [r'|]; cbn;
             [destruct (r' =? "")|]; reflexivity.
        -- reflexivity.
      * destruct (dynapictures_generate_cocktail_image dp c) as [r'|]; cbn;
          [destruct (r' =? "")|]; reflexivity.
    + destruct (dynapictures_generate_cocktail_image dp c) as [r'|]; cbn;
        [destruct (r' =? "")|]; reflexivity.
  - destruct (is_available st); cbn; [|reflexivity].
    destruct (stability_generate_cocktail_image st c) as [r|]; cbn;
      [destruct (r =? "")|]; reflexivity.
  - destruct (dynapictures_generate_cocktail_image dp c) as [r'|]; cbn;
      [destruct (r' =? "")|]; reflexivity.
  - reflexivity.
Qed.

(** One step of the chain on an adapter that does not succeed: the value
    is that of the rest, and the adapter was called iff it is available. *)
Lemma chain_skip (a : Adapter) (l : list Adapter) (c : Cocktail) :
  succeeds a c = false ->
  spec_generateImage (a :: l) c =
  (Log.value (spec_generateImage l c),
   ((if available a then [adapter_id a] else [])
      ++ Log.calls (spec_generateImage l c))%list).
Proof.
  unfold succeeds. intros H. cbn.
  destruct (available a); cbn in *.
  - rewrite H. cbn. destruct (spec_generateImage l c). reflexivity.
  - destruct (spec_generateImage l c). reflexivity.
Qed.

(** One step of the chain on an adapter that succeeds: its reference is
    returned after one call and the rest is not touched. *)
Lemma chain_stop (a : Adapter) (l : list Adapter) (c : Cocktail) :
  succeeds a c = true ->
  exists r, generate a c = Some r /\
            spec_generateImage (a :: l) c = (r, [adapter_id a]).
Proof.
  unfold succeeds. intros H. apply andb_prop in H. destruct H as [Ha Ht].
  destruct (truthy_some _ Ht) as [r [Hr _]].
  exists r. split; [exact Hr|].
  cbn. rewrite Ha. cbn. rewrite Ht, Hr. reflexivity.
Qed.

Lemma chain_exhausted (l : list Adapter) (c : Cocktail) :
  (forall a, In a l -> succeeds a c = false) ->
  spec_generateImage l c =
  (default_image, map adapter_id (filter available l)).
Proof.
  induction l as [|a l IH]; intros H; [reflexivity|].
  rewrite chain_skip by (apply H; left; reflexivity).
  rewrite IH by (intros b Hb; apply H; right; exact Hb).
  cbn. destruct (available a); reflexivity.
Qed.

Lemma chain_first_success (pre : list Adapter) (a : Adapter)
  (post : list Adapter) (c : Cocktail) :
  (forall b, In b pre -> succeeds b c = false) ->
  succeeds a c = true ->
  exists r, generate a c = Some r /\
            spec_generateImage (pre ++ a :: post) c =
            (r, (map adapter_id (filter available pre) ++ [adapter_id a])%list).
Proof.
  intros Hpre Ha.
  induction pre as [|b pre IH].
  - apply chain_stop. exact Ha.
  - destruct IH as [r [Hr Hrun]].
    { intros b' Hb'. apply Hpre. right. exact Hb'. }
    exists r. split; [exact Hr|].
    change ((b :: pre) ++ a :: post)%list with (b :: (pre ++ a :: post))%list.
    rewrite chain_skip by (apply Hpre; left; reflexivity).
    rewrite Hrun. cbn. destruct (available b); reflexivity.
Qed.

Lemma chain_outcomes (l : list Adapter) (c : Cocktail) :
  Log.value (spec_generateImage l c) = default_image \/
  exists a, In a l /\ succeeds a c = true /\
            generate a c = Some (Log.value (spec_generateImage l c)).
Proof.
  induction l as [|a l IH]; [left; reflexivity|].
  destruct (succeeds a c) eqn:Ha.
  - right. exists a. destruct (chain_stop a l c Ha) as [r [Hr Hrun]].
    rewrite Hrun. cbn. split; [left; reflexivity|]. split; [exact Ha|exact Hr].
  - rewrite chain_skip by exact Ha. cbn.
    destruct IH as [IH|[b [Hb [Hs Hg]]]]; [left; exact IH|].
    right. exists b. split; [right; exact Hb|]. split; assumption.
Qed.

(** The calls of the chain never exceed its adapters. *)
Lemma chain_calls_bounded (l : list Adapter) (c : Cocktail) :
  List.length (Log.calls (spec_generateImage l c)) <= List.length l.
Proof.
  induction l as [|a l IH]; [cbn; lia|].
  destruct (succeeds a c) eqn:Ha.
  - destruct (chain_stop a l c Ha) as [r [_ Hrun]]. rewrite Hrun. cbn. lia.
  - rewrite chain_skip by exact Ha. cbn [Log.calls snd].
    rewrite length_app. destruct (available a); cbn; lia.
Qed.

(** C1. Whatever services are configured (none at all included) and
    whatever the cocktail: if every adapter of the chain is unavailable or
    fails, [generate_image] returns the default image; and in every case
    its value is either the default image or the reference returned by an
    available adapter of the chain whose generation succeeded.  The
    function is total: there is no other outcome.  It is the fallback
    chain run on the services present, and that chain ends on the default
    image for every list of adapters, the empty one included, none of
    which succeeds. *)
Theorem generate_image_default_or_success :
  forall (self : ImageServices) (c : Cocktail),
    ((forall a, In a (adapters self) ->
                available a = false \/ truthy (generate a c) = false) ->
     Log.value (generate_image self c) = default_image)
    /\ (Log.value (generate_image self c) = default_image \/
        exists a, In a (adapters self) /\ available a = true /\
                  truthy (generate a c) = true /\
                  generate a c = Some (Log.value (generate_image self c)))
    /\ generate_image self c = spec_generateImage (adapters self) c
    /\ (forall l : list Adapter,
          (forall a, In a l ->
                     available a = false \/ truthy (generate a c) = false) ->
          Log.value (spec_generateImage l c) = default_image).
Proof.
  intros self c.
  assert (G : forall l : list Adapter,
             (forall a, In a l ->
                        available a = false \/ truthy (generate a c) = false) ->
             Log.value (spec_generateImage l c) = default_image).
  { intros l H. rewrite chain_exhausted; [reflexivity|].
    intros a Ha. unfold succeeds.
    destruct (H a Ha) as [E|E]; rewrite E;
      [reflexivity|apply andb_false_r]. }
  rewrite generate_image_refines. split; [apply G|]. split; [|split].
  - destruct (chain_outcomes (adapters self) c) as [H|[a [Ha [Hs Hg]]]];
      [left; exact H|].
    right. exists a. unfold succeeds in Hs. apply andb_prop in Hs.
    destruct Hs as [Hav Ht]. repeat split; assumption.
  - reflexivity.
  - exact G.
Qed.

Lemma generate_image_default_or_success_witness :
  (forall a, In a (adapters nothing_works) ->
             available a = false \/ truthy (generate a tropical_sunset) = false)
  /\ Log.value (generate_image nothing_works tropical_sunset) = default_image.
Proof.
  assert (H : forall a, In a (adapters nothing_works) ->
                        available a = false \/
                        truthy (generate a tropical_sunset) = false).
  { intros a [<-|[<-|[]]]; [left|right]; reflexivity. }
  split; [exact H|].
  exact (proj1 (generate_image_default_or_success nothing_works tropical_sunset) H).
Defined.

Lemma firstn_split_at {A : Type} (pre post : list A) (a : A) :
  firstn (S (List.length pre)) (pre ++ a :: post)%list = (pre ++ [a])%list.
Proof.
  induction pre as [|x pre IH]; cbn; [reflexivity|].
  cbn in IH. rewrite IH. reflexivity.
Qed.

(** Adapter [k] (counted from 1) splits the chain: the adapters before
    it, itself, and the adapters after it. *)
Lemma adapter_at_split (self : ImageServices) (k : nat) (a : Adapter) :
  adapter_at self k = Some a ->
  exists pre post,
    adapters self = (pre ++ a :: post)%list /\ S (List.length pre) = k /\
    firstn k (adapters self) = (pre ++ [a])%list.
Proof.
  destruct k as [|i]; [discriminate|]. cbn [adapter_at]. intros H.
  destruct (nth_error_split _ _ H) as [pre [post [E L]]].
  exists pre, post. split; [exact E|]. split; [rewrite L; reflexivity|].
  rewrite E, <- L. apply firstn_split_at.
Qed.

Lemma adapter_at_before (self : ImageServices) (pre post : list Adapter)
  (a b : Adapter) :
  adapters self = (pre ++ a :: post)%list -> In b pre ->
  exists j, j < S (List.length pre) /\ adapter_at self j = Some b.
Proof.
  intros E Hb. destruct (In_nth_error _ _ Hb) as [i Hi].
  exists (S i). cbn. rewrite E.
  assert (i < List.length pre) by (apply nth_error_Some; congruence).
  split; [lia|]. rewrite nth_error_app1 by assumption. exact Hi.
Qed.

(** Case analysis on a position of the chain, which has at most two
    adapters: the impossible positions are closed, the others name their
    adapter. *)
Ltac at_position j H :=
  destruct j as [|[|[|j]]]; cbn in H; try lia; try discriminate H;
  try (destruct j; discriminate H); try (injection H as <-).

(** C2. If adapter [k] (counted from 1) is the first adapter of the chain
    that is available and whose generation succeeds, then [generate_image]
    returns the reference of adapter [k]; every adapter before [k] was
    called at most once, and a call to it means that it was available and
    its generation failed; adapter [k] was called once; no adapter after
    [k] was called; and the calls are, in priority order, the available
    adapters among the first [k]. *)
Theorem generate_image_first_success :
  forall (self : ImageServices) (c : Cocktail) (k : nat) (a : Adapter),
    adapter_at self k = Some a ->
    available a = true ->
    truthy (generate a c) = true ->
    (forall j b, j < k -> adapter_at self j = Some b ->
                 available b = false \/ truthy (generate b c) = false) ->
    let log := Log.calls (generate_image self c) in
    generate a c = Some (Log.value (generate_image self c))
    /\ (forall j b, j < k -> adapter_at self j = Some b ->
                    invocations (adapter_id b) log <= 1
                    /\ (invocations (adapter_id b) log = 1 ->
                        available b = true /\ truthy (generate b c) = false))
    /\ invocations (adapter_id a) log = 1
    /\ (forall j b, k < j -> adapter_at self j = Some b ->
                    invocations (adapter_id b) log = 0)
    /\ log = map adapter_id (filter available (firstn k (adapters self))).
Proof.
  intros self c k a Hk Hav Ht Hbefore log.
  destruct (adapter_at_split self k a Hk) as [pre [post [E [L F]]]].
  assert (Hpre : forall b, In b pre -> succeeds b c = false).
  { intros b Hb. destruct (adapter_at_before self pre post a b E Hb) as [j [Hj Hjb]].
    rewrite L in Hj. unfold succeeds.
    destruct (Hbefore j b Hj Hjb) as [X|X]; rewrite X;
      [reflexivity|apply andb_false_r]. }
  assert (Ha : succeeds a c = true) by (unfold succeeds; rewrite Hav, Ht; reflexivity).
  destruct (chain_first_success pre a post c Hpre Ha) as [r [Hr Hrun]].
  assert (Hlog : log = map adapter_id (filter available (firstn k (adapters self)))).
  { unfold log. rewrite generate_image_refines, E, Hrun, <- E, F. cbn.
    rewrite filter_app, map_app. cbn. rewrite Hav. reflexivity. }
  assert (Hval : generate a c = Some (Log.value (generate_image self c))).
  { rewrite generate_image_refines, E, Hrun. exact Hr. }
  split; [exact Hval|].
  clear Hrun Hr Hpre F E L pre post Hval.
  clearbody log. subst log.
  destruct self as [[st|] [dp|]];
    destruct k as [|[|[|k]]]; cbn in Hk; try discriminate Hk;
    try (destruct k; discriminate Hk);
    injection Hk as <-; cbn in *.
  all: try rewrite Hav; cbn.
  all: repeat match goal with |- _ /\ _ => split end; try reflexivity.
  all: try (intros j b Hj Hb; at_position j Hb; cbn in *).
  all: try (destruct (is_available st) eqn:Eav; cbn in *).
  all: try (split; [lia|intros; try discriminate]).
  all: try reflexivity.
  split; [reflexivity|].
  destruct (Hbefore 1 (stability_adapter st) Hj eq_refl) as [X|X];
    cbn in X; [congruence|exact X].
Qed.

Lemma generate_image_first_success_witness :
  adapter_at cloud_fails_local_succeeds 2 = Some (dynapictures_adapter dynapictures_local)
  /\ generate (dynapictures_adapter dynapictures_local) tropical_sunset =
     Some (Log.value (generate_image cloud_fails_local_succeeds tropical_sunset))
  /\ invocations StabilityAI
       (Log.calls (generate_image cloud_fails_local_succeeds tropical_sunset)) <= 1.
Proof.
  assert (Hb : forall j b, j < 2 ->
                 adapter_at cloud_fails_local_succeeds j = Some b ->
                 available b = false \/
                 truthy (generate b tropical_sunset) = false).
  { intros j b Hj Hjb. at_position j Hjb. right. reflexivity. }
  pose proof (generate_image_first_success cloud_fails_local_succeeds
                tropical_sunset 2 (dynapictures_adapter dynapictures_local)
                eq_refl eq_refl eq_refl Hb) as H.
  cbv zeta in H. destruct H as [Hv [Hbefore _]].
  split; [reflexivity|]. split; [exact Hv|].
  exact (proj1 (Hbefore 1 (stability_adapter stability_failing)
                  (Nat.lt_succ_diag_r 1) eq_refl)).
Defined.

(** ** Strings *)

Lemma contains_prefix (p s : string) : prefix p s = true -> contains p s = true.
Proof. intros H. destruct s; cbn in *; rewrite H; reflexivity. Qed.

Lemma lower_ascii_idempotent (c : ascii) :
  lower_ascii (lower_ascii c) = lower_ascii c.
Proof. destruct c as [[] [] [] [] [] [] [] []]; reflexivity. Qed.

Lemma lower_idempotent (s : string) : lower (lower s) = lower s.
Proof.
  induction s as [|c s IH]; cbn; [reflexivity|].
  rewrite lower_ascii_idempotent, IH. reflexivity.
Qed.

(** A joined list starts with its first element. *)
Lemma concat_head (sep x : string) (l : list string) :
  exists t, String.concat sep (x :: l) = x ++ t.
Proof.
  destruct l as [|y l].
  - exists "". cbn. induction x as [|c x IH]; cbn; [reflexivity|].
    rewrite <- IH. reflexivity.
  - eexists. reflexivity.
Qed.

(** ** The prompt builder *)

(** The search looks at the text only through its lower-case form. *)
Lemma first_match_lower (table : Table) (text : string) :
  first_match table (lower text) = first_match table text.
Proof.
  induction table as [|[k d] table IH]; cbn; [reflexivity|].
  rewrite lower_idempotent, IH. reflexivity.
Qed.

Lemma color_descriptors_lower (table : Table) (ings : list string) :
  color_descriptors table (map lower ings) = color_descriptors table ings.
Proof.
  induction ings as [|i ings IH]; cbn; [reflexivity|].
  rewrite first_match_lower, IH. reflexivity.
Qed.


Lemma js_or_truthy (a : option string) (b s : string) :
  a = Some s -> s <> "" -> js_or a b = s.
Proof.
  intros -> H. cbn. destruct (s =? "") eqn:E; [|reflexivity].
  apply String.eqb_eq in E. contradiction.
Qed.

Lemma js_or_falsy (a : option string) (b : string) :
  truthy a = false -> js_or a b = b.
Proof.
  destruct a as [s|]; cbn; [|reflexivity].
  destruct (s =? ""); [reflexivity|discriminate].
Qed.

(** C3. For every cocktail that carries a non-empty [image_prompt], the
    prompt builder returns that string unchanged, whatever the name, the
    ingredients, the description and the tables are; and the detail view
    that posts the prompt sends that same string, unchanged, as the
    [prompt] of its request. *)
Theorem build_prompt_explicit_prompt_verbatim :
  forall (color_etc style_etc : Table) (c : Cocktail) (p : string),
    image_prompt c = Some p ->
    p <> "" ->
    build_prompt color_etc style_etc c = p
    /\ forall (st : ViewState) (out : FetchOutcome),
         requests (Log.calls (CocktailDetailPrompt.generateImage
                                {| cocktail := c; state := st |} out)) =
         [Post "http://localhost:5002/api/cocktails/generate-image"
            (PromptBody p)].
Proof.
  intros color_etc style_etc c p Hp Hne. split.
  - unfold build_prompt. apply js_or_truthy; assumption.
  - intros st out. unfold CocktailDetailPrompt.generateImage.
    cbn [cocktail]. rewrite Hp.
    destruct (p =? "") eqn:E; [apply String.eqb_eq in E; contradiction|].
    reflexivity.
Qed.

Lemma build_prompt_explicit_prompt_verbatim_witness :
  build_prompt [] []
    (cocktail_of "Sunset Tropical" ["4 cl de rhum blanc"] "tropical"
       (Some "Cocktail tropical dans un verre hurricane")) =
  "Cocktail tropical dans un verre hurricane".
Proof.
  refine (proj1 (build_prompt_explicit_prompt_verbatim [] []
                   (cocktail_of "Sunset Tropical" ["4 cl de rhum blanc"]
                      "tropical"
                      (Some "Cocktail tropical dans un verre hurricane"))
                   "Cocktail tropical dans un verre hurricane"
                   eq_refl _)).
  discriminate.
Defined.

(** A string contains what one of its two halves contains. *)
Lemma prefix_app_l (n a b : string) :
  prefix n a = true -> prefix n (a ++ b) = true.
Proof.
  revert n. induction a as [|x a IH]; intros n H.
  - destruct n; [destruct b; reflexivity|discriminate].
  - destruct n as [|y n]; [reflexivity|]. cbn in *.
    destruct (ascii_dec y x); [apply IH; exact H|discriminate].
Qed.

Lemma contains_app_l (n a b : string) :
  contains n a = true -> contains n (a ++ b) = true.
Proof.
  induction a as [|x a IH]; cbn [contains append]; intros H.
  - rewrite orb_false_r in H. destruct n; [|discriminate].
    apply contains_prefix. destruct b; reflexivity.
  - apply orb_prop in H. destruct H as [H|H].
    + pose proof (prefix_app_l n (String x a) b H) as P.
      cbn [append] in P. rewrite P. reflexivity.
    + rewrite (IH H). apply orb_true_r.
Qed.

Lemma contains_app_r (n a b : string) :
  contains n b = true -> contains n (a ++ b) = true.
Proof.
  intros H. induction a as [|x a IH]; cbn [contains append]; [exact H|].
  rewrite IH. apply orb_true_r.
Qed.

Lemma contains_self (n : string) : contains n n = true.
Proof.
  apply contains_prefix. induction n as [|x n IH]; cbn; [reflexivity|].
  destruct (ascii_dec x x); [exact IH|contradiction].
Qed.

Lemma color_descriptors_matched (table : Table) (ing color : string)
  (rest : list string) :
  first_match table ing = Some color ->
  color_descriptors table (ing :: rest) = color :: color_descriptors table rest.
Proof. intros H. cbn. rewrite H. reflexivity. Qed.

(** The colour part names the colour of the first matching ingredient. *)
Lemma color_part_contains_head (color : string) (rest : list string) :
  contains color (color_part (color :: rest)) = true.
Proof.
  unfold color_part. apply contains_app_r, contains_app_l.
  destruct (concat_head ", " color rest) as [t ->].
  apply contains_app_l, contains_self.
Qed.

(** C4. For the ingredients ["4 cl rhum blanc"; "jus d'ananas"] and the
    description "tropical sunset", without a prompt of its own, the built
    prompt contains "golden amber" and "tropical paradise setting with
    palm leaves", whatever the elided entries of the two tables are.  The
    search ignores case: the same holds for every spelling of the
    ingredients and of the description that differs only by the case of
    its letters. *)
Theorem build_prompt_tropical_sunset :
  forall (color_etc style_etc : Table) (n : string) (ings : list string)
         (d : string),
    map lower ings = ["4 cl rhum blanc"; "jus d'ananas"] ->
    lower d = "tropical sunset" ->
    let prompt := build_prompt color_etc style_etc (cocktail_of n ings d None) in
    contains "golden amber" prompt = true
    /\ contains "tropical paradise setting with palm leaves" prompt = true.
Proof.
  intros color_etc style_etc n ings d Hi Hd prompt.
  assert (Hrum : first_match (color_map color_etc) "4 cl rhum blanc"
                 = Some "golden amber") by reflexivity.
  assert (Htropical : first_match (style_keywords style_etc) "tropical sunset"
                      = Some "tropical paradise setting with palm leaves")
    by reflexivity.
  unfold prompt, build_prompt, derived_prompt.
  cbn [js_or image_prompt cocktail_of name ingredients description].
  rewrite <- color_descriptors_lower, Hi.
  unfold setting_descriptors. rewrite <- first_match_lower, Hd, Htropical.
  rewrite (color_descriptors_matched _ _ _ _ Hrum).
  split.
  - do 3 apply contains_app_r. apply contains_app_l.
    apply color_part_contains_head.
  - do 4 apply contains_app_r. apply contains_app_l.
    unfold setting_part. apply contains_app_r. apply contains_self.
Qed.

Lemma build_prompt_tropical_sunset_witness :
  contains "golden amber" (build_prompt [] [] tropical_sunset) = true
  /\ contains "tropical paradise setting with palm leaves"
       (build_prompt [] [] tropical_sunset) = true.
Proof.
  exact (build_prompt_tropical_sunset [] [] "Mojito Tropical"
           ["4 cl rhum blanc"; "jus d'ananas"] "tropical sunset"
           eq_refl eq_refl).
Defined.

(** The modelled builder reads the name, the ingredients, the description
    and the cocktail's own prompt, and nothing else of the record. *)
Lemma build_prompt_reads_four_fields :
  forall (color_etc style_etc : Table) (c1 c2 : Cocktail),
    name c1 = name c2 ->
    ingredients c1 = ingredients c2 ->
    description c1 = description c2 ->
    image_prompt c1 = image_prompt c2 \/
    (truthy (image_prompt c1) = false /\ truthy (image_prompt c2) = false) ->
    build_prompt color_etc style_etc c1 = build_prompt color_etc style_etc c2.
Proof.
  intros color_etc style_etc c1 c2 Hn Hi Hd Hp.
  assert (Hderived : derived_prompt color_etc style_etc c1
                     = derived_prompt color_etc style_etc c2).
  { unfold derived_prompt. rewrite Hn, Hi, Hd. reflexivity. }
  unfold build_prompt. rewrite Hderived.
  destruct Hp as [Hp|[H1 H2]].
  - rewrite Hp. reflexivity.
  - rewrite !js_or_falsy by assumption. reflexivity.
Qed.



Lemma length_append (a b : string) :
  String.length (a ++ b) = String.length a + String.length b.
Proof. induction a as [|x a IH]; cbn; [reflexivity|]. rewrite IH. reflexivity. Qed.

Lemma append_nil_r (a : string) : a ++ "" = a.
Proof. induction a as [|x a IH]; cbn; [reflexivity|]. rewrite IH. reflexivity. Qed.

Lemma append_assoc (a b c : string) : (a ++ b) ++ c = a ++ b ++ c.
Proof. induction a as [|x a IH]; cbn; [reflexivity|]. rewrite IH. reflexivity. Qed.








(** ** Provider adapters *)

Lemma key_not_configured (key placeholder : string) :
  key_configured key placeholder = false <-> key = "" \/ key = placeholder.
Proof.
  unfold key_configured. rewrite negb_false_iff, orb_true_iff.
  rewrite !String.eqb_eq. reflexivity.
Qed.

(** C7. An adapter whose availability predicate is false (its key is
    missing or is the placeholder) answers [generate] with the failure
    "unavailable" and sends no request; and in [generate_image] a
    Stability AI service that is not available is not called at all. *)
Theorem unavailable_adapter_fails_without_request :
  (forall (p : ProviderAdapter) (prompt : string) (cocktailId : Z),
      adapter_available p = false ->
      Log.value (adapter_generate p prompt cocktailId) = Failure "unavailable"
      /\ Log.calls (adapter_generate p prompt cocktailId) = [])
  /\ (forall (p : ProviderAdapter),
        api_key p = "" \/ api_key p = api_key_placeholder p ->
        adapter_available p = false)
  /\ (forall (self : ImageServices) (st : StabilityAIService) (c : Cocktail),
        stability_service self = Some st ->
        is_available st = false ->
        invocations StabilityAI (Log.calls (generate_image self c)) = 0).
Proof.
  split; [|split].
  - intros p prompt cocktailId H. unfold adapter_generate. rewrite H.
    split; reflexivity.
  - intros p H. apply key_not_configured. exact H.
  - intros [s d] st c Hs Hav. cbn in Hs. subst s.
    unfold generate_image, try_stability, try_dynapictures. cbn.
    rewrite Hav. cbn.
    destruct d as [dp|]; cbn; [|reflexivity].
    destruct (dynapictures_generate_cocktail_image dp c) as [r|]; cbn;
      [destruct (r =? "")|]; reflexivity.
Qed.

Lemma unavailable_adapter_fails_without_request_witness :
  adapter_available provider_with_placeholder = false
  /\ adapter_generate provider_with_placeholder "A beautiful Mojito" 42
     = (Failure "unavailable", []).
Proof.
  split; [reflexivity|].
  pose proof (proj1 unavailable_adapter_fails_without_request
                provider_with_placeholder "A beautiful Mojito" 42%Z eq_refl)
    as [Hv Hc].
  destruct (adapter_generate provider_with_placeholder "A beautiful Mojito" 42)
    as [v l].
  cbn in Hv, Hc. rewrite Hv, Hc. reflexivity.
Defined.

(** ** The log *)

Lemma bind_value {E A B : Type} (c : Log.M E A) (k : A -> Log.M E B) :
  Log.value (Log.bind c k) = Log.value (k (Log.value c)).
Proof.
  unfold Log.bind, Log.value. destruct c as [a l1]. cbn.
  destruct (k a). reflexivity.
Qed.

Lemma bind_calls {E A B : Type} (c : Log.M E A) (k : A -> Log.M E B) :
  Log.calls (Log.bind c k)
  = (Log.calls c ++ Log.calls (k (Log.value c)))%list.
Proof.
  unfold Log.bind, Log.calls, Log.value. destruct c as [a l1]. cbn.
  destruct (k a). reflexivity.
Qed.

(** ** The detail view with a [source] property *)

(** What a call of [generateImage] does, case by case: without an id
    nothing; otherwise one request, and then either the reference of the
    answer is shown and assigned to [image_path], or the default image is
    asked for and the cocktail object is left as it was. *)
Lemma generateImage_cases (v : View) (out : FetchOutcome) :
  let r := CocktailDetail.generateImage v out in
  (truthy_num (id (cocktail v)) = false /\ r = (v, []))
  \/ (exists z url,
        id (cocktail v) = Some z /\ z <> 0%Z /\
        out = Responded true (Some url) /\ url <> "" /\
        Log.calls r =
          [Post "http://localhost:5001/api/cocktails/generate-image"
             (CocktailIdBody z);
           AssignImagePath url] /\
        cocktail (Log.value r) = set_image_path (Some url) (cocktail v) /\
        generatedImage (state (Log.value r)) = Some url /\
        showDefaultImage (state (Log.value r)) = false)
  \/ (exists z,
        id (cocktail v) = Some z /\ z <> 0%Z /\
        (forall url, out = Responded true (Some url) -> url = "") /\
        Log.calls r =
          [Post "http://localhost:5001/api/cocktails/generate-image"
             (CocktailIdBody z)] /\
        cocktail (Log.value r) = cocktail v /\
        generatedImage (state (Log.value r)) = generatedImage (state v) /\
        showDefaultImage (state (Log.value r)) = true).
Proof.
  unfold CocktailDetail.generateImage.
  destruct (id (cocktail v)) as [z|] eqn:Hid; cbn; [|left; split; reflexivity].
  destruct (z =? 0)%Z eqn:Hz; cbn; [left; split; reflexivity|].
  apply Z.eqb_neq in Hz. right.
  destruct out as [message|[|] [url|]]; cbn.
  - right. exists z. repeat split; try assumption; try reflexivity.
    intros url' [=].
  - destruct (url =? "") eqn:Hu; cbn.
    + right. exists z. apply String.eqb_eq in Hu.
      repeat split; try assumption; try reflexivity.
      intros url' [= <-]. exact Hu.
    + left. exists z, url. apply String.eqb_neq in Hu.
      repeat split; try assumption; reflexivity.
  - right. exists z. repeat split; try assumption; try reflexivity.
    intros url' [=].
  - right. exists z. repeat split; try assumption; try reflexivity.
    intros url' [=].
  - right. exists z. repeat split; try assumption; try reflexivity.
    intros url' [=].
Qed.

(** The three branches of the effect. *)
Lemma useEffect_stored (source : option string) (v : View) (out : FetchOutcome) :
  truthy (image_path (cocktail v)) = true ->
  CocktailDetail.useEffect source v out =
  ({| cocktail := cocktail v;
      state := setShowDefaultImage false
                 (setGeneratedImage (image_path (cocktail v)) (state v)) |}, []).
Proof. intros H. unfold CocktailDetail.useEffect. rewrite H. reflexivity. Qed.

Lemma useEffect_generates (source : option string) (v : View) (out : FetchOutcome) :
  truthy (image_path (cocktail v)) = false ->
  (CocktailDetail.source_of source =? "generator")
  && truthy (image_prompt (cocktail v))
  && negb (truthy (generatedImage (state v))) = true ->
  CocktailDetail.useEffect source v out = CocktailDetail.generateImage v out.
Proof. intros H G. unfold CocktailDetail.useEffect. rewrite H, G. reflexivity. Qed.

Lemma useEffect_default (source : option string) (v : View) (out : FetchOutcome) :
  truthy (image_path (cocktail v)) = false ->
  (CocktailDetail.source_of source =? "generator")
  && truthy (image_prompt (cocktail v))
  && negb (truthy (generatedImage (state v))) = false ->
  CocktailDetail.useEffect source v out =
  ({| cocktail := cocktail v; state := setShowDefaultImage true (state v) |}, []).
Proof. intros H G. unfold CocktailDetail.useEffect. rewrite H, G. reflexivity. Qed.

Lemma image_shown_stored (p : option string) (st : ViewState) :
  truthy p = true ->
  image_shown (setShowDefaultImage false (setGeneratedImage p st)) = p.
Proof.
  intros H. unfold image_shown. cbn. rewrite H. cbn.
  destruct p as [s|]; [|discriminate]. cbn in *.
  destruct (s =? ""); [discriminate|reflexivity].
Qed.

(** C10. In the detail view with a [source] property, one run of the
    effect sends a generation request only if the view was opened from
    the generator, the cocktail has an [image_prompt] and no image has
    been generated yet (and no [image_path] is stored); if the cocktail
    has an [image_path], that reference is shown and nothing is sent; and
    a view opened from the history on a cocktail without [image_path]
    shows the default image and sends nothing. *)
Theorem detail_view_generates_only_from_generator :
  forall (source : option string) (c : Cocktail) (st : ViewState)
         (out : FetchOutcome),
    let r := CocktailDetail.useEffect source {| cocktail := c; state := st |} out in
    (requests (Log.calls r) <> [] ->
       CocktailDetail.source_of source = "generator"
       /\ truthy (image_prompt c) = true
       /\ truthy (generatedImage st) = false
       /\ truthy (image_path c) = false)
    /\ (truthy (image_path c) = true ->
          Log.calls r = [] /\ image_shown (state (Log.value r)) = image_path c)
    /\ (CocktailDetail.source_of source = "history" ->
        truthy (image_path c) = false ->
          Log.calls (CocktailDetail.useEffect source (mount c) out) = []
          /\ image_shown
               (state (Log.value (CocktailDetail.useEffect source (mount c) out)))
             = Some "/default.webp").
Proof.
  intros source c st out r. split; [|split].
  - intros Hreq.
    destruct (truthy (image_path c)) eqn:Hpath.
    { exfalso. apply Hreq. unfold r. rewrite useEffect_stored by exact Hpath.
      reflexivity. }
    destruct ((CocktailDetail.source_of source =? "generator")
              && truthy (image_prompt c)
              && negb (truthy (generatedImage st))) eqn:G.
    + apply andb_prop in G. destruct G as [G Hgen].
      apply andb_prop in G. destruct G as [Hsrc Hprompt].
      apply String.eqb_eq in Hsrc. apply negb_true_iff in Hgen.
      repeat split; assumption.
    + exfalso. apply Hreq. unfold r.
      rewrite useEffect_default by assumption. reflexivity.
  - intros Hpath. unfold r. rewrite useEffect_stored by exact Hpath.
    split; [reflexivity|]. cbn [Log.value fst state cocktail].
    apply image_shown_stored. exact Hpath.
  - intros Hsrc Hpath. rewrite useEffect_default.
    + split; reflexivity.
    + exact Hpath.
    + rewrite Hsrc. reflexivity.
Qed.

Lemma detail_view_generates_only_from_generator_witness :
  CocktailDetail.source_of None = "history"
  /\ truthy (image_path tropical_sunset_with_prompt) = false
  /\ Log.calls (CocktailDetail.useEffect None (mount tropical_sunset_with_prompt)
                  (Responded true (Some "/cocktail_1.jpeg"))) = []
  /\ image_shown
       (state (Log.value
                 (CocktailDetail.useEffect None (mount tropical_sunset_with_prompt)
                    (Responded true (Some "/cocktail_1.jpeg")))))
     = Some "/default.webp".
Proof.
  split; [reflexivity|]. split; [reflexivity|].
  exact (proj2 (proj2 (detail_view_generates_only_from_generator None
                         tropical_sunset_with_prompt initial_state
                         (Responded true (Some "/cocktail_1.jpeg"))))
           eq_refl eq_refl).
Defined.



Lemma truthy_url (url : string) : url <> "" -> truthy (Some url) = true.
Proof.
  intros H. cbn. destruct (url =? "") eqn:E; [|reflexivity].
  apply String.eqb_eq in E. contradiction.
Qed.



Lemma generate_image_exhausted (self : ImageServices) (c : Cocktail) :
  (forall a, In a (adapters self) ->
             available a = false \/ truthy (generate a c) = false) ->
  generate_image self c =
  (default_image, map adapter_id (filter available (adapters self))).
Proof.
  intros H. rewrite generate_image_refines. apply chain_exhausted.
  intros a Ha. unfold succeeds.
  destruct (H a Ha) as [E|E]; rewrite E; [reflexivity|apply andb_false_r].
Qed.

(** A view mounted on a cocktail without [image_path], answered without
    [image_url]: the default image is shown and the object is untouched. *)
Lemma useEffect_no_image_url (source : option string) (c : Cocktail) :
  truthy (image_path c) = false ->
  truthy_num (id c) = true ->
  let r := CocktailDetail.useEffect source (mount c) (Responded true None) in
  image_shown (state (Log.value r)) = Some "/default.webp"
  /\ cocktail (Log.value r) = c
  /\ assignments (Log.calls r) = [].
Proof.
  intros Hpath Hid. cbv zeta.
  destruct ((CocktailDetail.source_of source =? "generator")
            && truthy (image_prompt (cocktail (mount c)))
            && negb (truthy (generatedImage (state (mount c))))) eqn:G.
  - rewrite useEffect_generates by assumption.
    destruct (generateImage_cases (mount c) (Responded true None))
      as [[Hn _]|[[z [url [_ [_ [Ho _]]]]]|[z [_ [_ [_ [Hc [Hk [Hg Hs]]]]]]]]].
    + cbn in Hn. congruence.
    + discriminate Ho.
    + unfold image_shown. rewrite Hg, Hs, Hc, Hk. cbn. repeat split.
  - rewrite useEffect_default by assumption. cbn. repeat split.
Qed.

(** A view mounted where the generation test holds, answered with a
    reference: the reference is assigned to [image_path]. *)
Lemma useEffect_retry (source : option string) (c : Cocktail) (url : string) :
  CocktailDetail.will_generate source (mount c) = true ->
  url <> "" ->
  let r := CocktailDetail.useEffect source (mount c) (Responded true (Some url)) in
  assignments (Log.calls r) = [AssignImagePath url]
  /\ image_path (cocktail (Log.value r)) = Some url.
Proof.
  unfold CocktailDetail.will_generate. intros W Hu. cbv zeta.
  apply andb_prop in W. destruct W as [W Hid].
  apply andb_prop in W. destruct W as [W Hgen].
  apply andb_prop in W. destruct W as [W Hprompt].
  apply andb_prop in W. destruct W as [Hpath Hsrc].
  apply negb_true_iff in Hpath.
  rewrite useEffect_generates;
    [|exact Hpath|rewrite Hsrc, Hprompt, Hgen; reflexivity].
  destruct (generateImage_cases (mount c) (Responded true (Some url)))
    as [[Hn _]|[[z [url' [_ [_ [Ho [_ [Hc [Hk _]]]]]]]]|[z [_ [_ [Ho _]]]]]].
  - cbn [cocktail mount] in *. congruence.
  - injection Ho as <-. rewrite Hc, Hk. split; reflexivity.
  - exfalso. apply Hu. apply Ho. reflexivity.
Qed.

(** ** The number of calls of one generation

    One call of [generate_image] calls each service at most once, so at
    most as many services as are present, and at most two.  If every
    call is charged a duration of at most [T], the calls of one generation
    are charged at most [T] times the number of services. *)
Lemma generate_image_calls_bounded (self : ImageServices) (c : Cocktail) :
  List.length (Log.calls (generate_image self c)) <= List.length (adapters self)
  /\ List.length (adapters self) <= 2.
Proof.
  split.
  - rewrite generate_image_refines. apply chain_calls_bounded.
  - destruct self as [[st|] [dp|]]; cbn; lia.
Qed.

Lemma generate_image_charge_bounded (self : ImageServices) (c : Cocktail)
  (duration : ServiceId -> nat) (T : nat) :
  (forall s, duration s <= T) ->
  list_sum (map duration (Log.calls (generate_image self c)))
  <= List.length (adapters self) * T.
Proof.
  intros H.
  assert (G : forall l : list ServiceId,
             list_sum (map duration l) <= List.length l * T).
  { induction l as [|s l IH]; [cbn; lia|].
    cbn [map list_sum fold_right List.length]. fold (list_sum (map duration l)).
    specialize (H s). lia. }
  specialize (G (Log.calls (generate_image self c))).
  destruct (generate_image_calls_bounded self c) as [B _].
  nia.
Qed.

(** ** Concrete runs *)

Example generate_image_local_after_cloud :
  generate_image cloud_fails_local_succeeds tropical_sunset
  = ("/img/42.png", [StabilityAI; DynaPictures]).
Proof. reflexivity. Qed.

Example generate_image_no_key :
  generate_image nothing_works tropical_sunset
  = ("/default.webp", [DynaPictures]).
Proof. reflexivity. Qed.

Example generate_image_no_service :
  generate_image no_services tropical_sunset = ("/default.webp", []).
Proof. reflexivity. Qed.

Example generate_image_cloud_first :
  generate_image {| stability_service := Some stability_up;
                    dynapictures_service := Some dynapictures_local |}
    tropical_sunset
  = ("/cocktail_123.jpeg", [StabilityAI]).
Proof. reflexivity. Qed.

Example build_prompt_words_of_the_documented_prompt :
  starts_with (lead_in ++ "Mojito Tropical" ++ glass) documented_example = true
  /\ ends_with (", " ++ quality_qualifiers ++ closing_qualifiers)
       documented_example = true
  /\ build_prompt [] [] tropical_sunset
     = "A beautiful Mojito Tropical cocktail in an elegant glass, with golden amber tones, tropical paradise setting with palm leaves, professional photography, high quality, detailed, 8k resolution, studio lighting, elegant presentation, premium cocktail, sophisticated bar setting, crystal clear glass".
Proof. repeat split; reflexivity. Qed.

Example build_prompt_ignores_case :
  build_prompt [] []
    (cocktail_of "Daiquiri" ["4 CL RHUM Blanc"; "sucre"] "Un soir d'hiver" None)
  = "A beautiful Daiquiri cocktail in an elegant glass, with golden amber tones, professional photography, high quality, detailed, 8k resolution, studio lighting, elegant presentation, premium cocktail, sophisticated bar setting, crystal clear glass".
Proof. reflexivity. Qed.

Example adapter_with_key_sends_one_request :
  adapter_generate provider_with_key "A beautiful Mojito" 42
  = (Success "/cocktail_123.jpeg",
     [ {| request_url := "https://api.stability.ai/v2beta/stable-image/generate/sd3";
          request_prompt := "A beautiful Mojito";
          request_cocktail := 42 |} ]).
Proof. reflexivity. Qed.

(** Opened from the generator: a first mount whose request fails, a second
    mount that gets a reference, and a third one that finds it stored. *)
Example detail_view_three_mounts :
  Log.calls
    (CocktailDetail.run (mount tropical_sunset_with_prompt)
       [ CocktailDetail.Mount (Some "generator") (Rejected "Failed to fetch");
         CocktailDetail.Mount (Some "generator")
           (Responded true (Some "/cocktail_1.jpeg"));
         CocktailDetail.Mount (Some "generator")
           (Responded true (Some "/cocktail_1_bis.jpeg")) ])
  = [ Post "http://localhost:5001/api/cocktails/generate-image" (CocktailIdBody 1);
      Post "http://localhost:5001/api/cocktails/generate-image" (CocktailIdBody 1);
      AssignImagePath "/cocktail_1.jpeg" ].
Proof. reflexivity. Qed.

(** Opened from the history, nothing is sent, prompt or not. *)
Example detail_view_from_history :
  CocktailDetail.useEffect None (mount tropical_sunset_with_prompt)
    (Responded true (Some "/cocktail_1.jpeg"))
  = ({| cocktail := tropical_sunset_with_prompt;
        state := setShowDefaultImage true initial_state |}, []).
Proof. reflexivity. Qed.

(** The version that posts the prompt asks for an image whenever the
    cocktail has a prompt and none has been generated in the instance. *)
Example prompt_view_posts_the_prompt :
  Log.calls (CocktailDetailPrompt.useEffect (mount tropical_sunset_with_prompt)
               (Responded true (Some "/cocktail_1.jpeg")))
  = [ Post "http://localhost:5002/api/cocktails/generate-image"
        (PromptBody "Cocktail tropical dans un verre hurricane") ].
Proof. reflexivity. Qed.

(** The view assigns whatever truthy [image_url] the answer carries; it
    does not compare it with the default image. *)
Example detail_view_attaches_any_reference :
  Log.calls (CocktailDetail.useEffect (Some "generator")
               (mount tropical_sunset_with_prompt)
               (Responded true (Some "/default.webp")))
  = [ Post "http://localhost:5001/api/cocktails/generate-image" (CocktailIdBody 1);
      AssignImagePath "/default.webp" ].
Proof. reflexivity. Qed.

Example adapter_without_key_sends_nothing :
  adapter_generate provider_without_key "A beautiful Mojito" 42
  = (Failure "unavailable", []).
Proof. reflexivity. Qed.

(* ===================================================================== *)
(** * Part III: further properties of the code *)
(* ===================================================================== *)

(** ** The selection of the image service *)

(** X1. Whatever the services are and whatever they return,
    [generate_image] returns a non-empty reference: a caller never gets
    [None] or the empty string. *)
Theorem generate_image_reference_nonempty :
  forall (self : ImageServices) (c : Cocktail),
    Log.value (generate_image self c) <> ""
    /\ truthy (Some (Log.value (generate_image self c))) = true.
Proof.
  intros self c.
  assert (H : Log.value (generate_image self c) <> "").
  { rewrite generate_image_refines.
    destruct (chain_outcomes (adapters self) c) as [E|[a [_ [Hs Hg]]]].
    - rewrite E. discriminate.
    - unfold succeeds in Hs. apply andb_prop in Hs. destruct Hs as [_ Ht].
      rewrite Hg in Ht. cbn in Ht. intros E. rewrite E in Ht. discriminate. }
  split; [exact H|]. apply truthy_url. exact H.
Qed.

(** The calls of one generation, read off the two blocks. *)
Lemma generate_image_log (self : ImageServices) (c : Cocktail) :
  Log.calls (generate_image self c) =
  (match stability_service self with
   | Some st => if is_available st then [StabilityAI] else []
   | None => []
   end ++
   match stability_service self with
   | Some st =>
       if is_available st && truthy (stability_generate_cocktail_image st c)
       then []
       else match dynapictures_service self with
            | Some _ => [DynaPictures]
            | None => []
            end
   | None => match dynapictures_service self with
             | Some _ => [DynaPictures]
             | None => []
             end
   end)%list.
Proof.
  rewrite generate_image_refines.
  destruct self as [[st|] [dp|]]; unfold adapters; cbn.
  all: try (destruct (is_available st); cbn).
  all: try (destruct (stability_generate_cocktail_image st c) as [r|]; cbn;
            try (destruct (r =? ""); cbn)).
  all: try (destruct (dynapictures_generate_cocktail_image dp c) as [r'|]; cbn;
            try (destruct (r' =? ""); cbn)).
  all: reflexivity.
Qed.

(** X2. Which services one generation calls: Stability AI exactly when
    it is present and available; DynaPictures exactly when it is present
    and Stability AI did not deliver (absent, unavailable, or a falsy
    result); never a service twice, and never DynaPictures before
    Stability AI. *)
Theorem generate_image_calls_exactly :
  forall (self : ImageServices) (c : Cocktail),
    let log := Log.calls (generate_image self c) in
    (In StabilityAI log <->
       exists st, stability_service self = Some st /\ is_available st = true)
    /\ (In DynaPictures log <->
          (exists dp, dynapictures_service self = Some dp)
          /\ ~ (exists st, stability_service self = Some st
                           /\ is_available st = true
                           /\ truthy (stability_generate_cocktail_image st c) = true))
    /\ (log = [] \/ log = [StabilityAI] \/ log = [DynaPictures]
        \/ log = [StabilityAI; DynaPictures]).
Proof.
  intros self c log. unfold log. rewrite generate_image_log.
  destruct self as [[st|] [dp|]]; cbn [stability_service dynapictures_service].
  all: try (destruct (is_available st) eqn:Hav; cbn [andb]).
  all: try (destruct (truthy (stability_generate_cocktail_image st c)) eqn:Ht).
  all: cbn.
  all: repeat split; try tauto; try (intros [H|H]; discriminate || contradiction).
  all: try (intros [H|[H|H]]; discriminate || contradiction).
  all: try (intros; exists st; split; [reflexivity|assumption]).
  all: try (intros; exists dp; reflexivity).
  all: try (intros [st0 [E [A T]]]; injection E as <-; congruence).
  all: try (intros [st0 [E A]]; try discriminate E; injection E as <-; congruence).
  all: try (intros [st0 [E _]]; discriminate E).
  all: try (intros [[dp0 E] _]; discriminate E).
  all: try (intros [_ N]; exfalso; apply N; exists st; auto).
  all: match goal with H : _ \/ False |- _ => destruct H as [H|[]]; discriminate H end.
Qed.

(** X3. When Stability AI is available and delivers, the result is its
    reference after a single call, whatever the DynaPictures service is
    and whether it is configured at all. *)
Theorem generate_image_stability_first :
  forall (st : StabilityAIService) (dp1 dp2 : option DynaPicturesService)
         (c : Cocktail),
    is_available st = true ->
    truthy (stability_generate_cocktail_image st c) = true ->
    generate_image {| stability_service := Some st; dynapictures_service := dp1 |} c
    = generate_image {| stability_service := Some st; dynapictures_service := dp2 |} c
    /\ Log.calls (generate_image
                   {| stability_service := Some st; dynapictures_service := dp1 |} c)
       = [StabilityAI]
    /\ stability_generate_cocktail_image st c
       = Some (Log.value (generate_image
                            {| stability_service := Some st;
                               dynapictures_service := dp1 |} c)).
Proof.
  intros st dp1 dp2 c Hav Ht.
  assert (H : forall dp,
             generate_image {| stability_service := Some st;
                               dynapictures_service := dp |} c
             = (js_or (stability_generate_cocktail_image st c) "", [StabilityAI])).
  { intros dp. unfold generate_image, try_stability. cbn. rewrite Hav. cbn.
    rewrite Ht. destruct (truthy_some _ Ht) as [r [-> Hr]]. cbn.
    destruct (r =? "") eqn:E; [apply String.eqb_eq in E; contradiction|].
    reflexivity. }
  rewrite (H dp1), (H dp2). split; [reflexivity|]. split; [reflexivity|].
  destruct (truthy_some _ Ht) as [r [-> Hr]]. cbn.
  destruct (r =? "") eqn:E; [apply String.eqb_eq in E; contradiction|].
  reflexivity.
Qed.

Lemma generate_image_stability_first_witness :
  generate_image {| stability_service := Some stability_up;
                    dynapictures_service := Some dynapictures_local |}
    tropical_sunset
  = generate_image {| stability_service := Some stability_up;
                      dynapictures_service := None |} tropical_sunset.
Proof.
  exact (proj1 (generate_image_stability_first stability_up
                  (Some dynapictures_local) None tropical_sunset
                  eq_refl eq_refl)).
Defined.

(** ** The detail view with a [source] property *)

Lemma set_image_path_same (c : Cocktail) : set_image_path (image_path c) c = c.
Proof. destruct c. reflexivity. Qed.

Lemma set_image_path_twice (p q : option string) (c : Cocktail) :
  set_image_path p (set_image_path q c) = set_image_path p c.
Proof. reflexivity. Qed.

(** One step on a cocktail whose [image_path] is stored does nothing to
    the outside and leaves the object as it is. *)
Lemma step_stored (v : View) (s : CocktailDetail.Step) :
  truthy (image_path (cocktail v)) = true ->
  Log.calls (CocktailDetail.step v s) = []
  /\ cocktail (Log.value (CocktailDetail.step v s)) = cocktail v.
Proof.
  intros H. destruct s as [source out|source out]; cbn [CocktailDetail.step];
    rewrite useEffect_stored by exact H; split; reflexivity.
Qed.

(** X4. Once [image_path] is stored in the cocktail object, no mount and
    no run of the effect sends a request or changes the object: the
    stored image is never generated again. *)
Theorem detail_view_stored_image_is_final :
  forall (steps : list CocktailDetail.Step) (v : View),
    truthy (image_path (cocktail v)) = true ->
    Log.calls (CocktailDetail.run v steps) = []
    /\ cocktail (Log.value (CocktailDetail.run v steps)) = cocktail v.
Proof.
  induction steps as [|s steps IH]; intros v H; [split; reflexivity|].
  cbn [CocktailDetail.run]. rewrite bind_calls, bind_value.
  destruct (step_stored v s H) as [Hc Hk].
  destruct (IH (Log.value (CocktailDetail.step v s))) as [IHc IHk].
  { rewrite Hk. exact H. }
  rewrite Hc, IHc, IHk, Hk. split; reflexivity.
Qed.

Lemma detail_view_stored_image_is_final_witness :
  Log.calls
    (CocktailDetail.run (mount tropical_sunset_again)
       [ CocktailDetail.Mount (Some "generator")
           (Responded true (Some "/cocktail_9.jpeg"));
         CocktailDetail.Rerun (Some "generator") (Rejected "Failed to fetch") ])
  = [].
Proof.
  exact (proj1 (detail_view_stored_image_is_final
                  [ CocktailDetail.Mount (Some "generator")
                      (Responded true (Some "/cocktail_9.jpeg"));
                    CocktailDetail.Rerun (Some "generator")
                      (Rejected "Failed to fetch") ]
                  (mount tropical_sunset_again) eq_refl)).
Defined.

Lemma useEffect_shows_stored (source : option string) (v : View)
  (out : FetchOutcome) :
  let v' := Log.value (CocktailDetail.useEffect source v out) in
  truthy (image_path (cocktail v')) = true ->
  image_shown (state v') = image_path (cocktail v').
Proof.
  cbv zeta.
  destruct (truthy (image_path (cocktail v))) eqn:Hpath.
  { rewrite useEffect_stored by exact Hpath. cbn [Log.value fst cocktail state].
    intros _. apply image_shown_stored. exact Hpath. }
  destruct ((CocktailDetail.source_of source =? "generator")
            && truthy (image_prompt (cocktail v))
            && negb (truthy (generatedImage (state v)))) eqn:G.
  - rewrite useEffect_generates by assumption.
    destruct (generateImage_cases v out)
      as [[_ E]|[[z [url [_ [_ [_ [Hu [_ [Hk [Hg Hs]]]]]]]]]
                |[z [_ [_ [_ [_ [Hk _]]]]]]]].
    + rewrite E. cbn [Log.value fst]. congruence.
    + intros _. rewrite Hk. cbn [image_path set_image_path].
      unfold image_shown. rewrite Hg, Hs. rewrite (truthy_url url Hu). cbn.
      destruct (url =? "") eqn:E; [apply String.eqb_eq in E; contradiction|].
      reflexivity.
    + rewrite Hk. congruence.
  - rewrite useEffect_default by assumption. cbn [Log.value fst cocktail].
    congruence.
Qed.

(** X5. After any mount or run of the effect, and so after any non-empty
    sequence of them, a cocktail that has an [image_path] is shown with
    exactly that image. *)
Theorem detail_view_shows_stored_image :
  forall (steps : list CocktailDetail.Step) (v : View),
    steps <> [] ->
    let v' := Log.value (CocktailDetail.run v steps) in
    truthy (image_path (cocktail v')) = true ->
    image_shown (state v') = image_path (cocktail v').
Proof.
  induction steps as [|s steps IH]; intros v Hne; [contradiction|].
  cbv zeta. cbn [CocktailDetail.run]. rewrite bind_value.
  destruct steps as [|s' steps].
  - cbn [CocktailDetail.run Log.ret Log.value fst].
    destruct s as [source out|source out]; cbn [CocktailDetail.step];
      apply useEffect_shows_stored.
  - apply IH. discriminate.
Qed.

Lemma detail_view_shows_stored_image_witness :
  image_shown
    (state (Log.value
              (CocktailDetail.run (mount tropical_sunset_with_prompt)
                 [ CocktailDetail.Mount (Some "generator")
                     (Responded true (Some "/cocktail_1.jpeg")) ])))
  = Some "/cocktail_1.jpeg".
Proof.
  refine (detail_view_shows_stored_image
            [ CocktailDetail.Mount (Some "generator")
                (Responded true (Some "/cocktail_1.jpeg")) ]
            (mount tropical_sunset_with_prompt) _ eq_refl).
  discriminate.
Defined.


(** X7. In both versions of the view, once the request is sent, the
    message "Service de génération d'images temporairement indisponible"
    is set exactly when the request is rejected with an error whose text
    contains "500".  A response that is not [ok], whatever its status,
    sets "Erreur lors de la génération de l'image". *)
Theorem detail_view_error_messages :
  forall (v : View) (out : FetchOutcome),
    (truthy_num (id (cocktail v)) = true ->
       (imageError (state (Log.value (CocktailDetail.generateImage v out)))
        = Some "Service de génération d'images temporairement indisponible"
        <-> exists m, out = Rejected m /\ contains "500" m = true)
       /\ (forall url, out = Responded false url ->
             imageError (state (Log.value (CocktailDetail.generateImage v out)))
             = Some "Erreur lors de la génération de l'image"))
    /\ (truthy (image_prompt (cocktail v)) = true ->
          (imageError (state (Log.value (CocktailDetailPrompt.generateImage v out)))
           = Some "Service de génération d'images temporairement indisponible"
           <-> exists m, out = Rejected m /\ contains "500" m = true)
          /\ (forall url, out = Responded false url ->
                imageError
                  (state (Log.value (CocktailDetailPrompt.generateImage v out)))
                = Some "Erreur lors de la génération de l'image")).
Proof.
  intros v out. split.
  - intros Hid. unfold CocktailDetail.generateImage.
    destruct (id (cocktail v)) as [z|]; [|discriminate Hid].
    cbn in Hid. destruct (z =? 0)%Z; [discriminate Hid|].
    destruct out as [m|[|] [url|]]; cbn.
    + unfold on_error. cbn. destruct (contains "500" m) eqn:E; cbn.
      * split; [split; [intros _; exists m; auto|reflexivity]|].
        intros url [=].
      * split; [split; [discriminate|intros [m' [[= <-] H]]; congruence]|].
        intros url [=].
    + destruct (url =? ""); cbn;
        (split; [split; [discriminate|intros [m [[=] _]]]|intros url' [=]]).
    + split; [split; [discriminate|intros [m [[=] _]]]|intros url' [=]].
    + split; [split; [discriminate|intros [m [[=] _]]]|reflexivity].
    + split; [split; [discriminate|intros [m [[=] _]]]|reflexivity].
  - intros Hp. unfold CocktailDetailPrompt.generateImage.
    destruct (image_prompt (cocktail v)) as [p|]; [|discriminate Hp].
    cbn in Hp. destruct (p =? ""); [discriminate Hp|].
    destruct out as [m|[|] [url|]]; cbn.
    + unfold on_error. cbn. destruct (contains "500" m) eqn:E; cbn.
      * split; [split; [intros _; exists m; auto|reflexivity]|].
        intros url [=].
      * split; [split; [discriminate|intros [m' [[= <-] H]]; congruence]|].
        intros url [=].
    + destruct (url =? ""); cbn;
        (split; [split; [discriminate|intros [m [[=] _]]]|intros url' [=]]).
    + split; [split; [discriminate|intros [m [[=] _]]]|intros url' [=]].
    + split; [split; [discriminate|intros [m [[=] _]]]|reflexivity].
    + split; [split; [discriminate|intros [m [[=] _]]]|reflexivity].
Qed.

Lemma detail_view_error_messages_witness :
  imageError
    (state (Log.value
              (CocktailDetail.generateImage (mount tropical_sunset)
                 (Responded false None))))
  = Some "Erreur lors de la génération de l'image".
Proof.
  exact (proj2 (proj1 (detail_view_error_messages (mount tropical_sunset)
                         (Responded false None)) eq_refl)
           None eq_refl).
Defined.

(** ** The detail view that posts the prompt *)

(** X8. Mounted on any cocktail, the view that posts the prompt sends one
    request exactly when the cocktail has a prompt, never touches the
    cocktail object, and always ends with an image on screen and the
    spinner off.  The image shown is the one of the answer exactly when
    the cocktail has a prompt and the request is answered [ok] with a
    truthy [image_url]; in every other case it is the default image. *)
Theorem prompt_view_always_shows_an_image :
  forall (c : Cocktail) (out : FetchOutcome),
    let r := CocktailDetailPrompt.useEffect (mount c) out in
    (requests (Log.calls r) <> [] <-> truthy (image_prompt c) = true)
    /\ List.length (Log.calls r) <= 1
    /\ assignments (Log.calls r) = []
    /\ cocktail (Log.value r) = c
    /\ isGeneratingImage (state (Log.value r)) = false
    /\ (forall url,
          truthy (image_prompt c) = true ->
          out = Responded true (Some url) ->
          url <> "" ->
          image_shown (state (Log.value r)) = Some url)
    /\ (truthy (image_prompt c) = false
        \/ (forall url, out = Responded true (Some url) -> url = "") ->
        image_shown (state (Log.value r)) = Some "/default.webp").
Proof.
  intros c out. cbv zeta. unfold CocktailDetailPrompt.useEffect.
  cbn [mount cocktail state generatedImage initial_state truthy negb].
  rewrite andb_true_r.
  destruct (truthy (image_prompt c)) eqn:Hp; cbn [negb].
  - unfold CocktailDetailPrompt.generateImage. cbn [cocktail mount].
    destruct (image_prompt c) as [p|]; [|discriminate Hp]. cbn in Hp.
    destruct (p =? ""); [discriminate Hp|].
    destruct out as [m|[|] [url|]]; cbn;
      try (destruct (url =? "") eqn:E; cbn;
           [apply String.eqb_eq in E|apply String.eqb_neq in E]);
      repeat split; try discriminate; auto; intros;
      repeat match goal with
             | H : Responded _ _ = Responded _ _ |- _ => injection H as H; subst
             | H : _ \/ _ |- _ => destruct H
             | H : forall u, Responded true (Some ?x) = _ -> _ |- _ =>
                 specialize (H x eq_refl)
             end;
      try congruence.
    unfold image_shown. cbn.
    destruct (url0 =? "") eqn:E'; [|reflexivity].
    apply String.eqb_eq in E'. contradiction.
  - cbn. repeat split; try discriminate; auto.
Qed.

(** ** The detail view with a [source] property, along its life *)

Lemma useEffect_keeps_fields (source : option string) (v : View)
  (out : FetchOutcome) :
  let r := CocktailDetail.useEffect source v out in
  set_image_path (image_path (cocktail v)) (cocktail (Log.value r)) = cocktail v
  /\ List.length (requests (Log.calls r)) <= 1
  /\ (isGeneratingImage (state v) = false ->
      isGeneratingImage (state (Log.value r)) = false).
Proof.
  cbv zeta.
  destruct (truthy (image_path (cocktail v))) eqn:Hpath.
  { rewrite useEffect_stored by exact Hpath. cbn.
    split; [apply set_image_path_same|]. split; [lia|auto]. }
  destruct ((CocktailDetail.source_of source =? "generator")
            && truthy (image_prompt (cocktail v))
            && negb (truthy (generatedImage (state v)))) eqn:G.
  - rewrite useEffect_generates by assumption.
    unfold CocktailDetail.generateImage.
    destruct (id (cocktail v)) as [z|]; cbn;
      [|split; [apply set_image_path_same|split; [lia|auto]]].
    destruct (z =? 0)%Z; cbn;
      [split; [apply set_image_path_same|split; [lia|auto]]|].
    destruct out as [m|[|] [url|]]; cbn;
      try (split; [apply set_image_path_same|split; [lia|auto]]).
    destruct (url =? ""); cbn;
      (split; [destruct (cocktail v); reflexivity|split; [lia|auto]]).
  - rewrite useEffect_default by assumption. cbn.
    split; [apply set_image_path_same|]. split; [lia|auto].
Qed.

(** X9. Along any sequence of mounts and effect runs, the view changes
    nothing in the cocktail object but [image_path]; it sends at most one
    request per step; and the spinner is off whenever a step has ended. *)
Theorem detail_view_only_touches_image_path :
  forall (steps : list CocktailDetail.Step) (v : View),
    let r := CocktailDetail.run v steps in
    set_image_path (image_path (cocktail v)) (cocktail (Log.value r)) = cocktail v
    /\ List.length (requests (Log.calls r)) <= List.length steps
    /\ (isGeneratingImage (state v) = false ->
        isGeneratingImage (state (Log.value r)) = false).
Proof.
  induction steps as [|s steps IH]; intros v; cbv zeta.
  - cbn. split; [apply set_image_path_same|]. split; [lia|auto].
  - cbn [CocktailDetail.run]. rewrite bind_calls, bind_value.
    unfold requests in *. rewrite filter_app, length_app.
    assert (Hs : set_image_path (image_path (cocktail v))
                   (cocktail (Log.value (CocktailDetail.step v s))) = cocktail v
                 /\ List.length (filter is_post (Log.calls (CocktailDetail.step v s))) <= 1
                 /\ (isGeneratingImage (state v) = false ->
                     isGeneratingImage (state (Log.value (CocktailDetail.step v s))) = false)).
    { destruct s as [source out|source out]; cbn [CocktailDetail.step].
      - destruct (useEffect_keeps_fields source (mount (cocktail v)) out)
          as [A [B C]].
        split; [exact A|]. split; [exact B|]. intros _. apply C. reflexivity.
      - exact (useEffect_keeps_fields source v out). }
    destruct Hs as [A [B C]].
    destruct (IH (Log.value (CocktailDetail.step v s))) as [A' [B' C']].
    split; [|split].
    + rewrite <- A at 2. rewrite <- A'. reflexivity.
    + cbn [List.length]. lia.
    + intros H. apply C', C, H.
Qed.


(** ** The detail view with a [source] property: one reference, and retry *)



(** ** The history of cocktails *)

Lemma id_eqb_eq (a b : option Z) : id_eqb a b = true <-> a = b.
Proof.
  destruct a as [x|], b as [y|]; cbn; try (split; [discriminate|discriminate]).
  - rewrite Z.eqb_eq. split; [intros ->; reflexivity|intros [= ->]; reflexivity].
  - split; reflexivity.
Qed.

Lemma js_or_nonempty (a : option string) (b : string) :
  b <> "" -> js_or a b <> "".
Proof.
  intros Hb. destruct a as [s|]; cbn; [|exact Hb].
  destruct (s =? "") eqn:E; [exact Hb|]. apply String.eqb_neq. exact E.
Qed.

Lemma load_error_nonempty (message : string) :
  CocktailHistory.load_error message <> "".
Proof.
  unfold CocktailHistory.load_error.
  destruct (contains "Failed to fetch" message); discriminate.
Qed.

(** X10. A confirmed delete that the server reports as done removes from
    the list exactly the cards with that id and keeps the others in their
    order.  The previous page is requested exactly when the list had a
    single card and the current page is beyond the first: the list is
    then the one of the answer, and when that request fails the list is
    still without the deleted card, on the same page, under an error.
    Otherwise only the delete request is sent, and the page number and
    the pagination data (hence the total in the title line) stay as they
    were. *)
Theorem history_delete_removes_the_card :
  forall (st : CocktailHistory.State) (cocktailId : option Z)
         (data_error : option string) (reload : CocktailHistory.ListOutcome),
    let r := CocktailHistory.deleteCocktail st cocktailId true
               (CocktailHistory.DeleteResponded true data_error) reload in
    let last_of_page :=
      (List.length (CocktailHistory.cocktails st) =? 1)%nat
      && (1 <? CocktailHistory.currentPage st)%Z in
    let kept :=
      filter (fun c => negb (id_eqb (id c) cocktailId))
        (CocktailHistory.cocktails st) in
    (forall c, In c kept <->
               In c (CocktailHistory.cocktails st) /\ id c <> cocktailId)
    /\ (last_of_page = false ->
          Log.calls r =
            [ CocktailHistory.DELETE (CocktailHistory.delete_url cocktailId) ]
          /\ CocktailHistory.cocktails (Log.value r) = kept
          /\ CocktailHistory.pagination (Log.value r) = CocktailHistory.pagination st
          /\ CocktailHistory.total_shown (Log.value r) = CocktailHistory.total_shown st
          /\ CocktailHistory.currentPage (Log.value r) = CocktailHistory.currentPage st)
    /\ (last_of_page = true ->
          Log.calls r =
            [ CocktailHistory.DELETE (CocktailHistory.delete_url cocktailId);
              CocktailHistory.GET
                (CocktailHistory.list_url (CocktailHistory.currentPage st - 1)) ]
          /\ (forall status statusText data_cocktails data_pagination,
                reload = CocktailHistory.ListResponded true status statusText
                           data_cocktails data_pagination ->
                CocktailHistory.cocktails (Log.value r)
                = match data_cocktails with Some l => l | None => [] end
                /\ CocktailHistory.pagination (Log.value r) = data_pagination
                /\ CocktailHistory.currentPage (Log.value r)
                   = (CocktailHistory.currentPage st - 1)%Z
                /\ CocktailHistory.error (Log.value r) = "")
          /\ ((forall status statusText data_cocktails data_pagination,
                 reload <> CocktailHistory.ListResponded true status statusText
                             data_cocktails data_pagination) ->
              CocktailHistory.cocktails (Log.value r) = kept
              /\ CocktailHistory.pagination (Log.value r)
                 = CocktailHistory.pagination st
              /\ CocktailHistory.currentPage (Log.value r)
                 = CocktailHistory.currentPage st
              /\ CocktailHistory.error (Log.value r) <> ""))
    /\ CocktailHistory.deletingId (Log.value r) = None.
Proof.
  intros st cocktailId data_error reload. cbv zeta.
  split.
  { intros c. rewrite filter_In, negb_true_iff.
    split; intros [H N]; (split; [exact H|]).
    - intros E. apply id_eqb_eq in E. congruence.
    - destruct (id_eqb (id c) cocktailId) eqn:E; [|reflexivity].
      apply id_eqb_eq in E. contradiction. }
  unfold CocktailHistory.deleteCocktail. cbn [negb].
  destruct ((List.length (CocktailHistory.cocktails st) =? 1)%nat
            && (1 <? CocktailHistory.currentPage st)%Z) eqn:L.
  - split; [discriminate|]. split.
    + intros _.
      destruct reload as [m|[|] status text cs pg]; cbn;
        (split; [reflexivity|]); split.
      all: try (intros ? ? ? ? [=]).
      all: try (intros H; exfalso; eapply H; reflexivity).
      all: try (intros _; repeat split; try reflexivity;
                apply load_error_nonempty).
      subst. repeat split.
    + destruct reload as [m|[|] status text cs pg]; reflexivity.
  - split; [intros _|split; [discriminate|reflexivity]].
    cbn. repeat split; reflexivity.
Qed.

Lemma history_delete_removes_the_card_witness :
  (Log.calls (CocktailHistory.deleteCocktail history_last_card (Some 1%Z) true
                (CocktailHistory.DeleteResponded true None)
                (CocktailHistory.ListRejected "Failed to fetch"))
   = [ CocktailHistory.DELETE "http://localhost:5002/api/cocktails/1";
       CocktailHistory.GET "http://localhost:5002/api/cocktails?page=1&per_page=6" ]
   /\ CocktailHistory.cocktails
        (Log.value (CocktailHistory.deleteCocktail history_last_card (Some 1%Z) true
                      (CocktailHistory.DeleteResponded true None)
                      (CocktailHistory.ListRejected "Failed to fetch")))
      = [])
  /\ CocktailHistory.cocktails
       (Log.value (CocktailHistory.deleteCocktail history_two_cards (Some 2%Z) true
                     (CocktailHistory.DeleteResponded true None)
                     (CocktailHistory.ListRejected "Failed to fetch")))
     = [tropical_sunset].
Proof.
  split.
  - destruct (proj1 (proj2 (proj2
               (history_delete_removes_the_card history_last_card (Some 1%Z)
                  None (CocktailHistory.ListRejected "Failed to fetch"))))
               eq_refl) as [Hcalls [_ Hfail]].
    split; [exact Hcalls|].
    apply Hfail. intros status statusText cs pg. discriminate.
  - exact (proj1 (proj2 (proj1 (proj2
             (history_delete_removes_the_card history_two_cards (Some 2%Z)
                None (CocktailHistory.ListRejected "Failed to fetch")))
             eq_refl))).
Defined.

(** X11. A card lists the first two ingredients and announces the others
    only when there are more than three: listed and announced ingredients
    add up to all the ingredients of the cocktail, except for a cocktail
    with exactly three, whose third ingredient is neither listed nor
    announced. *)
Theorem history_card_ingredients :
  forall c : Cocktail,
    let n := List.length (ingredients c) in
    let announced := match CocktailHistory.announced_ingredients c with
                     | Some k => k
                     | None => 0
                     end in
    (List.length (CocktailHistory.listed_ingredients c) + announced = n <-> n <> 3)
    /\ (n = 3 ->
        List.length (CocktailHistory.listed_ingredients c) = 2
        /\ CocktailHistory.announced_ingredients c = None)
    /\ CocktailHistory.listed_ingredients c = firstn 2 (ingredients c).
Proof.
  intros c. cbv zeta.
  unfold CocktailHistory.listed_ingredients, CocktailHistory.announced_ingredients.
  rewrite length_firstn.
  destruct (Nat.ltb_spec 3 (List.length (ingredients c))) as [H|H].
  - split; [split; lia|]. split; [lia|reflexivity].
  - split; [split; lia|]. split; [intros E; split; [lia|reflexivity]|reflexivity].
Qed.

Lemma history_card_ingredients_witness :
  List.length (ingredients (set_ingredients ["rhum"; "citron"; "menthe"] tropical_sunset)) = 3
  /\ CocktailHistory.announced_ingredients
       (set_ingredients ["rhum"; "citron"; "menthe"] tropical_sunset) = None.
Proof.
  split; [reflexivity|].
  exact (proj2 (proj1 (proj2 (history_card_ingredients
                                (set_ingredients ["rhum"; "citron"; "menthe"]
                                   tropical_sunset))) eq_refl)).
Defined.

(** X12. A list request that fails (rejected, or answered with a status
    that is not [ok]) leaves the cards, the pagination data and the page
    number as they were and puts the error screen in place of the list;
    "Réessayer" then asks for the page that was current before the
    failure.  A list request that succeeds makes the requested page the
    current one, clears the error and shows the grid, or the empty screen
    when the answer has no cocktail. *)
Theorem history_load_outcomes :
  forall (st : CocktailHistory.State) (p : Z) (out : CocktailHistory.ListOutcome),
    let r := CocktailHistory.fetchCocktails st p out in
    let st' := Log.value r in
    Log.calls r = [CocktailHistory.GET (CocktailHistory.list_url p)]
    /\ CocktailHistory.isLoading st' = false
    /\ ((forall status text cs pg,
            out <> CocktailHistory.ListResponded true status text cs pg) ->
        CocktailHistory.cocktails st' = CocktailHistory.cocktails st
        /\ CocktailHistory.pagination st' = CocktailHistory.pagination st
        /\ CocktailHistory.currentPage st' = CocktailHistory.currentPage st
        /\ CocktailHistory.screen st' = CocktailHistory.ErrorScreen
                                          (CocktailHistory.error st')
        /\ forall out',
             Log.calls (CocktailHistory.handle st' (CocktailHistory.Retry out'))
             = [CocktailHistory.GET
                  (CocktailHistory.list_url (CocktailHistory.currentPage st))])
    /\ (forall status text cs pg,
          out = CocktailHistory.ListResponded true status text cs pg ->
          CocktailHistory.currentPage st' = p
          /\ CocktailHistory.error st' = ""
          /\ CocktailHistory.cocktails st' = match cs with Some l => l | None => [] end
          /\ CocktailHistory.screen st'
             = match cs with
               | Some (_ :: _) => CocktailHistory.GridScreen
               | _ => CocktailHistory.EmptyScreen
               end).
Proof.
  intros st p out. cbv zeta.
  split; [destruct out as [m|[|] status text cs pg]; reflexivity|].
  split; [destruct out as [m|[|] status text cs pg]; reflexivity|].
  split.
  - intros Hfail. destruct out as [m|[|] status text cs pg].
    + cbn. repeat split.
      destruct (CocktailHistory.load_error m =? "") eqn:X; [|reflexivity].
      apply String.eqb_eq in X. destruct (load_error_nonempty _ X).
    + destruct (Hfail status text cs pg eq_refl).
    + cbn. repeat split.
      destruct (CocktailHistory.load_error _ =? "") eqn:X; [|reflexivity].
      apply String.eqb_eq in X. destruct (load_error_nonempty _ X).
  - intros status text cs pg ->. cbn. repeat split.
    destruct cs as [[|c l]|]; reflexivity.
Qed.

Lemma history_load_outcomes_witness :
  CocktailHistory.screen
    (Log.value (CocktailHistory.fetchCocktails history_two_cards 2
                  (CocktailHistory.ListResponded false 500
                     "INTERNAL SERVER ERROR" None None)))
  = CocktailHistory.ErrorScreen
      "Erreur lors du chargement: Erreur 500: INTERNAL SERVER ERROR".
Proof.
  refine (proj1 (proj2 (proj2 (proj2 (proj1 (proj2 (proj2
            (history_load_outcomes history_two_cards 2
               (CocktailHistory.ListResponded false 500
                  "INTERNAL SERVER ERROR" None None)))) _))))).
  intros status text cs pg. discriminate.
Defined.

(** X13. A confirmed delete that fails (the request is rejected, or the
    answer does not report success) sends the delete request only, keeps
    every card, and puts the error screen in place of the list, with the
    server's message when it gives one. *)
Theorem history_failed_delete_shows_error :
  forall (st : CocktailHistory.State) (cocktailId : option Z)
         (out : CocktailHistory.DeleteOutcome)
         (reload : CocktailHistory.ListOutcome),
    CocktailHistory.isLoading st = false ->
    (forall data_error, out <> CocktailHistory.DeleteResponded true data_error) ->
    let r := CocktailHistory.deleteCocktail st cocktailId true out reload in
    Log.calls r = [CocktailHistory.DELETE (CocktailHistory.delete_url cocktailId)]
    /\ CocktailHistory.cocktails (Log.value r) = CocktailHistory.cocktails st
    /\ CocktailHistory.deletingId (Log.value r) = None
    /\ CocktailHistory.screen (Log.value r)
       = CocktailHistory.ErrorScreen (CocktailHistory.error (Log.value r))
    /\ (forall message, message <> "" ->
          out = CocktailHistory.DeleteResponded false (Some message) ->
          CocktailHistory.error (Log.value r) = message).
Proof.
  intros st cocktailId out reload Hl Hfail. cbv zeta.
  destruct out as [|[|] data_error].
  - unfold CocktailHistory.deleteCocktail, CocktailHistory.screen. cbn.
    rewrite Hl. cbn. repeat split; try reflexivity.
    intros message _ [=].
  - destruct (Hfail data_error eq_refl).
  - unfold CocktailHistory.deleteCocktail, CocktailHistory.screen. cbn.
    rewrite Hl. cbn. repeat split; try reflexivity.
    + destruct (js_or data_error "Erreur lors de la suppression" =? "") eqn:X;
        [|reflexivity].
      apply String.eqb_eq in X. exfalso. revert X.
      apply js_or_nonempty. discriminate.
    + intros message Hm [= ->]. cbn.
      destruct (message =? "") eqn:X; [|reflexivity].
      apply String.eqb_eq in X. contradiction.
Qed.

Lemma history_failed_delete_shows_error_witness :
  CocktailHistory.screen
    (Log.value (CocktailHistory.deleteCocktail history_two_cards (Some 2%Z) true
                  (CocktailHistory.DeleteResponded false (Some "Cocktail non trouvé"))
                  (CocktailHistory.ListRejected "Failed to fetch")))
  = CocktailHistory.ErrorScreen "Cocktail non trouvé".
Proof.
  refine (proj1 (proj2 (proj2 (proj2
            (history_failed_delete_shows_error history_two_cards (Some 2%Z)
               (CocktailHistory.DeleteResponded false (Some "Cocktail non trouvé"))
               (CocktailHistory.ListRejected "Failed to fetch") eq_refl _))))).
  intros data_error. discriminate.
Defined.

(** ** [trim] *)

(** One step of [trimStart]: either the string starts with white space,
    which is dropped, or it is returned as it is. *)
Lemma trimStart_step (s : string) :
  (starts_with_white_space s = false /\ trimStart s = s)
  \/ (starts_with_white_space s = true /\
      exists w r, s = w ++ r /\ w <> "" /\ trimStart s = trimStart r /\
                  forall t, trimStart (s ++ t) = trimStart (r ++ t)).
Proof.
  destruct s as [|a [|b [|c r3]]]; cbn.
  - left. split; reflexivity.
  - destruct (white_space_1 a); [right|left; split; reflexivity].
    split; [reflexivity|]. exists (String a ""), "".
    repeat split; try reflexivity. discriminate.
  - destruct (white_space_1 a); cbn.
    + right. split; [reflexivity|]. exists (String a ""), (String b "").
      repeat split; try reflexivity. discriminate.
    + destruct (white_space_2 a b); [right|left; split; reflexivity].
      split; [reflexivity|]. exists (String a (String b "")), "".
      repeat split; try reflexivity. discriminate.
  - destruct (white_space_1 a); cbn.
    + right. split; [reflexivity|].
      exists (String a ""), (String b (String c r3)).
      repeat split; try reflexivity. discriminate.
    + destruct (white_space_2 a b); cbn.
      * right. split; [reflexivity|].
        exists (String a (String b "")), (String c r3).
        repeat split; try reflexivity. discriminate.
      * destruct (white_space_3 a b c); [right|left; split; reflexivity].
        split; [reflexivity|].
        exists (String a (String b (String c ""))), r3.
        repeat split; try reflexivity. discriminate.
Qed.

(** Induction along the steps of [trimStart]. *)
Lemma trimStart_induction (P : string -> Prop) :
  (forall s, starts_with_white_space s = false -> P s) ->
  (forall w r, w <> "" -> starts_with_white_space (w ++ r) = true ->
               trimStart (w ++ r) = trimStart r ->
               (forall t, trimStart ((w ++ r) ++ t) = trimStart (r ++ t)) ->
               P r -> P (w ++ r)) ->
  forall s, P s.
Proof.
  intros Hstop Hstep s.
  remember (String.length s) as n eqn:Hn. revert s Hn.
  induction n as [n IH] using lt_wf_ind. intros s Hn.
  destruct (trimStart_step s) as [[Hw _]|[Hw [w [r [E [Hne [Ht Happ]]]]]]].
  - apply Hstop. exact Hw.
  - subst s. apply Hstep; try assumption.
    apply (IH (String.length r)); [|reflexivity].
    rewrite Hn, length_append. destruct w; [contradiction|cbn; lia].
Qed.

Lemma trimStart_not_white (s : string) :
  starts_with_white_space s = false -> trimStart s = s.
Proof.
  intros H. destruct (trimStart_step s) as [[_ E]|[Hw _]]; [exact E|congruence].
Qed.

Lemma trimStart_result (s : string) :
  starts_with_white_space (trimStart s) = false
  /\ exists w, s = w ++ trimStart s.
Proof.
  induction s as [s Hs|w r Hne Hw Ht Happ [IH1 [w' IH2]]] using trimStart_induction.
  - rewrite (trimStart_not_white s Hs). split; [exact Hs|]. exists "". reflexivity.
  - rewrite Ht. split; [exact IH1|]. exists (w ++ w').
    rewrite append_assoc, <- IH2. reflexivity.
Qed.

Lemma trimStart_idempotent (s : string) : trimStart (trimStart s) = trimStart s.
Proof. apply trimStart_not_white, trimStart_result. Qed.

(** White space in front of a string does not count. *)
Lemma trimStart_blank_append (u t : string) :
  trimStart u = "" -> trimStart (u ++ t) = trimStart t.
Proof.
  induction u as [u Hu|w r Hne Hw Ht Happ IH] using trimStart_induction;
    intros H.
  - rewrite (trimStart_not_white u Hu) in H. subst u. reflexivity.
  - rewrite Happ. apply IH. rewrite <- Ht. exact H.
Qed.

(** What [trimEnd] removes is white space. *)
Lemma trimEnd_result (s : string) :
  exists t, s = trimEnd s ++ t /\ trimStart t = "".
Proof.
  induction s as [|a rest [t [E Ht]]].
  - exists "". split; reflexivity.
  - cbn [trimEnd]. destruct (trimStart (String a rest) =? "") eqn:B.
    + exists (String a rest). split; [reflexivity|].
      apply String.eqb_eq. exact B.
    + exists t. split; [|exact Ht]. cbn. rewrite <- E. reflexivity.
Qed.

Lemma trimEnd_blank (s : string) : trimEnd s = "" <-> trimStart s = "".
Proof.
  destruct s as [|a rest]; [split; reflexivity|].
  cbn [trimEnd]. destruct (trimStart (String a rest) =? "") eqn:B.
  - apply String.eqb_eq in B. split; [intros _; exact B|reflexivity].
  - apply String.eqb_neq in B. split; [discriminate|contradiction].
Qed.

Lemma trimEnd_idempotent (s : string) : trimEnd (trimEnd s) = trimEnd s.
Proof.
  induction s as [|a rest IH]; [reflexivity|].
  cbn [trimEnd]. destruct (trimStart (String a rest) =? "") eqn:B; [reflexivity|].
  cbn [trimEnd]. rewrite IH.
  destruct (trimStart (String a (trimEnd rest)) =? "") eqn:B'; [|reflexivity].
  exfalso. apply String.eqb_eq in B'. apply String.eqb_neq in B. apply B.
  destruct (trimEnd_result rest) as [t [E Ht]].
  rewrite E at 1.
  change (String a (trimEnd rest ++ t)) with (String a (trimEnd rest) ++ t).
  rewrite (trimStart_blank_append _ t B'). exact Ht.
Qed.

(** Cutting the end of a string that does not start with white space
    gives a string that does not start with white space. *)
Lemma starts_with_white_space_prefix (p t : string) :
  starts_with_white_space (p ++ t) = false ->
  starts_with_white_space p = false.
Proof.
  destruct p as [|a [|b [|c p]]]; cbn; try reflexivity.
  - destruct t as [|b [|c t]]; cbn; intros H;
      apply orb_false_iff in H; destruct H as [H _]; rewrite H; reflexivity.
  - destruct t as [|c t]; cbn; intros H.
    + exact H.
    + apply orb_false_iff in H. destruct H as [H1 H].
      apply orb_false_iff in H. destruct H as [H2 _].
      rewrite H1, H2. reflexivity.
  - intros H. exact H.
Qed.

Lemma trimStart_trimEnd (s : string) :
  starts_with_white_space s = false ->
  starts_with_white_space (trimEnd s) = false.
Proof.
  intros H. destruct (trimEnd_result s) as [t [E _]].
  rewrite E in H. apply starts_with_white_space_prefix in H. exact H.
Qed.

(** [trim] leaves nothing to trim, and gives the empty string exactly on
    the strings made of white space. *)
Lemma trim_spec (s : string) :
  trim (trim s) = trim s
  /\ trimStart (trim s) = trim s
  /\ trimEnd (trim s) = trim s
  /\ (trim s = "" <-> trimStart s = "").
Proof.
  assert (A : trimStart (trim s) = trim s).
  { apply trimStart_not_white. unfold trim.
    apply trimStart_trimEnd, trimStart_result. }
  assert (B : trimEnd (trim s) = trim s) by apply trimEnd_idempotent.
  split; [|split; [exact A|split; [exact B|]]].
  - unfold trim at 1. rewrite A. exact B.
  - unfold trim. rewrite trimEnd_blank, trimStart_idempotent. reflexivity.
Qed.

(** ** The generator of cocktails *)

Lemma generation_error_nonempty (message : string) :
  CocktailGenerator.generation_error message <> "".
Proof.
  unfold CocktailGenerator.generation_error.
  destruct (contains "Failed to fetch" message); discriminate.
Qed.

(** X14. A description made of white space only (the empty one included)
    is refused without any request; every other description is sent in
    exactly one request, stripped of the white space at both ends: what is
    sent is not empty and trimming it again changes nothing. *)
Theorem generator_sends_trimmed_prompt :
  forall (has_callback : bool) (st : CocktailGenerator.State)
         (out : CocktailGenerator.GenerateOutcome),
    let log := Log.calls (CocktailGenerator.handleSubmit has_callback st out) in
    (trimStart (CocktailGenerator.prompt st) = "" ->
       log = []
       /\ Log.value (CocktailGenerator.handleSubmit has_callback st out)
          = {| CocktailGenerator.prompt := CocktailGenerator.prompt st;
               CocktailGenerator.isLoading := CocktailGenerator.isLoading st;
               CocktailGenerator.generatedCocktail :=
                 CocktailGenerator.generatedCocktail st;
               CocktailGenerator.error :=
                 "Veuillez saisir une description pour votre cocktail" |})
    /\ (trimStart (CocktailGenerator.prompt st) <> "" ->
          exists sent,
            filter (fun a => match a with
                             | CocktailGenerator.PostGenerate _ _ => true
                             | CocktailGenerator.OnCocktailGenerated => false
                             end) log
            = [CocktailGenerator.PostGenerate
                 "http://localhost:5002/api/cocktails/generate" sent]
            /\ sent = trim (CocktailGenerator.prompt st)
            /\ sent <> ""
            /\ trim sent = sent
            /\ starts_with_white_space sent = false).
Proof.
  intros has_callback st out. cbv zeta.
  destruct (trim_spec (CocktailGenerator.prompt st)) as [T1 [T2 [T3 T4]]].
  unfold CocktailGenerator.handleSubmit.
  destruct (trim (CocktailGenerator.prompt st) =? "") eqn:B.
  - apply String.eqb_eq in B. split; [intros _; split; reflexivity|].
    intros H. exfalso. apply H, T4, B.
  - apply String.eqb_neq in B. split; [intros H; exfalso; apply B, T4, H|].
    intros _. exists (trim (CocktailGenerator.prompt st)).
    split; [|split; [reflexivity|split; [exact B|split; [exact T1|]]]].
    + destruct out as [m|[|] status text [|] [c|]]; cbn;
        try reflexivity; destruct has_callback; reflexivity.
    + rewrite <- T2. apply trimStart_result.
Qed.

Lemma generator_sends_trimmed_prompt_witness :
  Log.calls (CocktailGenerator.handleSubmit true
               {| CocktailGenerator.prompt := "  	 ";
                  CocktailGenerator.isLoading := false;
                  CocktailGenerator.generatedCocktail := None;
                  CocktailGenerator.error := "" |}
               (CocktailGenerator.GenerateRejected "Failed to fetch"))
  = [].
Proof.
  exact (proj1 (proj1 (generator_sends_trimmed_prompt true
                         {| CocktailGenerator.prompt := "  	 ";
                            CocktailGenerator.isLoading := false;
                            CocktailGenerator.generatedCocktail := None;
                            CocktailGenerator.error := "" |}
                         (CocktailGenerator.GenerateRejected "Failed to fetch"))
                  eq_refl)).
Defined.

(** X15. A submitted description that is not blank ends in one of two
    ways.  Answered [ok] with [success] and a cocktail: that cocktail is
    shown, the description is cleared, no error is left and the parent is
    told once.  In every other case (rejected request, status not [ok],
    answer without success or without cocktail): the parent is not told,
    the description stays as typed, the cocktail that was on screen is
    gone and an error message is shown.  In both the loading flag is
    off at the end. *)
Theorem generator_submission_outcomes :
  forall (st : CocktailGenerator.State) (out : CocktailGenerator.GenerateOutcome),
    trimStart (CocktailGenerator.prompt st) <> "" ->
    let r := CocktailGenerator.handleSubmit true st out in
    let told := filter (fun a => match a with
                                 | CocktailGenerator.OnCocktailGenerated => true
                                 | CocktailGenerator.PostGenerate _ _ => false
                                 end) (Log.calls r) in
    CocktailGenerator.isLoading (Log.value r) = false
    /\ ((exists status text c,
            out = CocktailGenerator.GenerateResponded true status text true (Some c)
            /\ CocktailGenerator.generatedCocktail (Log.value r) = Some c
            /\ CocktailGenerator.prompt (Log.value r) = ""
            /\ CocktailGenerator.error (Log.value r) = ""
            /\ told = [CocktailGenerator.OnCocktailGenerated])
        \/ ((forall status text c,
               out <> CocktailGenerator.GenerateResponded true status text true (Some c))
            /\ CocktailGenerator.generatedCocktail (Log.value r) = None
            /\ CocktailGenerator.prompt (Log.value r) = CocktailGenerator.prompt st
            /\ CocktailGenerator.error (Log.value r) <> ""
            /\ told = [])).
Proof.
  intros st out Hp. cbv zeta.
  destruct (trim_spec (CocktailGenerator.prompt st)) as [_ [_ [_ T4]]].
  unfold CocktailGenerator.handleSubmit.
  destruct (trim (CocktailGenerator.prompt st) =? "") eqn:B.
  { apply String.eqb_eq in B. exfalso. apply Hp, T4, B. }
  destruct out as [m|[|] status text [|] [c|]]; cbn.
  all: split; [reflexivity|].
  2: { left. exists status, text, c. repeat split. }
  all: right; repeat split; try discriminate; try apply generation_error_nonempty.
Qed.

Lemma generator_submission_outcomes_witness :
  CocktailGenerator.prompt
    (Log.value (CocktailGenerator.handleSubmit true
                  {| CocktailGenerator.prompt := " un cocktail fruité ";
                     CocktailGenerator.isLoading := false;
                     CocktailGenerator.generatedCocktail := Some tropical_sunset;
                     CocktailGenerator.error := "" |}
                  (CocktailGenerator.GenerateResponded false 500
                     "INTERNAL SERVER ERROR" false None)))
  = " un cocktail fruité ".
Proof.
  pose proof (generator_submission_outcomes
                {| CocktailGenerator.prompt := " un cocktail fruité ";
                   CocktailGenerator.isLoading := false;
                   CocktailGenerator.generatedCocktail := Some tropical_sunset;
                   CocktailGenerator.error := "" |}
                (CocktailGenerator.GenerateResponded false 500
                   "INTERNAL SERVER ERROR" false None)) as H.
  cbv zeta in H.
  destruct H as [_ [[status [text [c [E _]]]]|[_ [_ [P _]]]]].
  - discriminate.
  - discriminate E.
  - exact P.
Defined.

(** ** The application shell *)

Lemma app_run_cons (st : App.State) (e : App.Event) (events : list App.Event) :
  App.run st (e :: events) = App.run (App.handle st e) events.
Proof. reflexivity. Qed.

(** What every state reached by the shell satisfies: the tab is one of
    the three, and the detail tab has its cocktail. *)
Lemma app_invariant (events : list App.Event) :
  forall st : App.State,
    (App.activeTab st = "generator" \/ App.activeTab st = "history"
     \/ (App.activeTab st = "detail" /\ App.selectedCocktail st <> None)) ->
    let st' := App.run st events in
    (App.activeTab st' = "generator" \/ App.activeTab st' = "history"
     \/ (App.activeTab st' = "detail" /\ App.selectedCocktail st' <> None))
    /\ App.selectedCocktail st' = last_viewed events (App.selectedCocktail st)
    /\ App.refreshHistory st'
       = (App.refreshHistory st + Z.of_nat (generated_count events))%Z.
Proof.
  induction events as [|e events IH]; intros st H; cbv zeta.
  - cbn. split; [exact H|]. split; [reflexivity|]. unfold generated_count. cbn. lia.
  - rewrite app_run_cons.
    destruct (IH (App.handle st e)) as [A [B C]].
    { destruct e; cbn; auto.
      right. right. split; [reflexivity|discriminate]. }
    split; [exact A|]. rewrite B, C.
    unfold generated_count. destruct e; cbn; split; try reflexivity; lia.
Qed.

(** X16. Whatever the user does from the start of the application, the
    shell shows exactly one of its three views; the detail view is never
    without a cocktail, its cocktail is that of the last card clicked and
    it is given no [source].  The view that the shell imports
    ([./components/CocktailDetail], the one that posts the prompt) then
    sends one request, with the prompt of that cocktail, exactly when the
    cocktail has a prompt.  The refresh counter handed to the history is
    the number of cocktails generated. *)
Theorem app_shows_exactly_one_view :
  forall events : list App.Event,
    let st := App.run App.initial_state events in
    List.length (App.main st) = 1
    /\ (forall c source,
          In (App.Detail c source) (App.main st) ->
          last_viewed events None = Some c /\ source = None
          /\ forall out,
               Log.calls (CocktailDetailPrompt.useEffect (mount c) out)
               = if truthy (image_prompt c)
                 then [Post "http://localhost:5002/api/cocktails/generate-image"
                         (PromptBody (js_or (image_prompt c) ""))]
                 else [])
    /\ (forall n, In (App.History n) (App.main st) ->
                  n = Z.of_nat (generated_count events))
    /\ App.refreshHistory st = Z.of_nat (generated_count events).
Proof.
  intros events. cbv zeta.
  destruct (app_invariant events App.initial_state) as [A [B C]];
    [left; reflexivity|].
  cbn in B, C. unfold App.main.
  destruct A as [A|[A|[A N]]]; rewrite A; cbn.
  - split; [reflexivity|]. split; [intros c source [H|[]]; discriminate H|].
    split; [intros n [H|[]]; discriminate H|exact C].
  - split; [reflexivity|]. split; [intros c source [H|[]]; discriminate H|].
    split; [|exact C]. intros n [[= <-]|[]]. exact C.
  - destruct (App.selectedCocktail _) as [c|] eqn:S; [|contradiction].
    cbn. split; [reflexivity|]. split; [|split; [|exact C]].
    + intros c' source [[= <- <-]|[]]. split; [symmetry; exact B|].
      split; [reflexivity|]. intros out.
      unfold CocktailDetailPrompt.useEffect, CocktailDetailPrompt.generateImage.
      cbn [cocktail mount state generatedImage initial_state truthy negb].
      destruct (image_prompt c) as [p|]; cbn; [|reflexivity].
      destruct (p =? ""); reflexivity.
    + intros n [H|[]]. discriminate H.
Qed.

(** ** The start and stop scripts *)

(** The texts of the messages play no part in what a script runs: they
    are put aside before the case analysis. *)
Ltac forget_texts :=
  repeat match goal with
         | |- context [Scripts.print ?l (String ?a ?s)] =>
             let t := fresh "text" in
             set (t := String a s); clearbody t
         | |- context [Scripts.echo (String ?a ?s)] =>
             let t := fresh "text" in
             set (t := String a s); clearbody t
         end.

(** Case analysis on the exit status of every command that is run. *)
Ltac by_status :=
  repeat match goal with
         | |- context [Scripts.status_of ?h ?c] =>
             destruct (Scripts.status_of h c); cbn -[Scripts.status_of]
         end.

Ltac close_cases :=
  repeat split; intros;
  repeat match goal with
         | H : _ \/ _ |- _ => destruct H
         | H : False |- _ => destruct H
         end;
  subst; cbn in *; auto; try discriminate; try congruence.

(** X17. The stop script removes the volumes (the data of the
    application) only when it is called with [--clean] or [--volumes],
    and removes images or prunes the system only with [--clean]; a plain
    stop and [--force] never do.  It calls the [docker-compose] program
    only where that program is installed, the plugin otherwise, and when
    neither is installed it exits with status 1 without running
    anything. *)
Theorem stop_script_keeps_volumes_unless_asked :
  forall (h : Scripts.Host) (arg : string),
    let r := DockerStop.docker_stop h arg in
    (forall via remove_orphans,
        In (Scripts.ComposeDown via true remove_orphans) (Scripts.commands r) ->
        arg = "--clean" \/ arg = "--volumes")
    /\ (In Scripts.SystemPrune (Scripts.commands r)
        \/ In Scripts.RemoveImages (Scripts.commands r) ->
        arg = "--clean")
    /\ (forall c, In c (Scripts.commands r) ->
                  (Scripts.uses_docker_compose c = true ->
                   Scripts.has_docker_compose h = true)
                  /\ (Scripts.uses_docker_compose c = false ->
                      Scripts.uses_docker c = true))
    /\ (Scripts.has_docker_compose h = false ->
        Scripts.has_compose_plugin h = false ->
        Scripts.commands r = [] /\ Scripts.final_status r = 1).
Proof.
  intros h arg. cbv zeta. unfold DockerStop.docker_stop, Scripts.compose.
  forget_texts.
  unfold Scripts.run, Scripts.attempt.
  destruct (Scripts.has_docker_compose h) eqn:Hc;
    destruct (Scripts.has_compose_plugin h) eqn:Hp;
    cbn -[Scripts.status_of String.eqb].
  4: close_cases.
  all: destruct (arg =? "--clean") eqn:A1; [apply String.eqb_eq in A1|];
    cbn -[Scripts.status_of String.eqb].
  all: try (destruct (arg =? "--volumes") eqn:A2; [apply String.eqb_eq in A2|];
            cbn -[Scripts.status_of String.eqb]).
  all: try (destruct (arg =? "--force") eqn:A3;
            cbn -[Scripts.status_of String.eqb]).
  all: destruct (Scripts.running_containers h =? 0)%nat;
    cbn -[Scripts.status_of String.eqb].
  all: by_status; close_cases.
Qed.

(** ** The start script *)

Lemma commands_bind {A B} (c : Scripts.Sh A) (k : A -> Scripts.Sh B) :
  Scripts.commands (Scripts.bind c k)
  = (Scripts.commands c
     ++ match snd c with
        | Scripts.Continue a => Scripts.commands (k a)
        | Scripts.Exit _ => []
        end)%list.
Proof.
  destruct c as [l1 [a|s]]; unfold Scripts.commands, Scripts.outputs; cbn.
  - destruct (k a) as [l2 r]. cbn. apply flat_map_app.
  - symmetry. apply app_nil_r.
Qed.

Lemma control_bind {A B} (c : Scripts.Sh A) (k : A -> Scripts.Sh B) :
  Scripts.control (Scripts.bind c k)
  = match snd c with
    | Scripts.Continue a => Scripts.control (k a)
    | Scripts.Exit s => Some s
    end.
Proof.
  destruct c as [l1 [a|s]]; unfold Scripts.control; cbn; [|reflexivity].
  destruct (k a) as [l2 r]. reflexivity.
Qed.

Lemma final_status_control (r : Scripts.Sh unit) :
  Scripts.final_status r
  = match Scripts.control r with None => 0 | Some s => s end.
Proof.
  unfold Scripts.final_status, Scripts.control. destruct (snd r); reflexivity.
Qed.

(** X18. The start script runs nothing and exits with status 1 when
    Docker or Compose is not installed, when Docker is not running, or
    when neither [.env] nor its template exists.  In every other case the
    first thing it runs is the copy of the template, when [.env] is
    missing, or the reading of [.env]. *)
Theorem start_script_prerequisites :
  forall (h : Scripts.Host) (arg : string),
    let r := DockerStart.docker_start h arg in
    let ready :=
      Scripts.has_docker h
      && (Scripts.has_docker_compose h || Scripts.has_compose_plugin h)
      && Scripts.docker_running h
      && (Scripts.is_some (Scripts.dotenv h)
          || Scripts.is_some (Scripts.dotenv_docker h)) in
    (ready = false -> Scripts.commands r = [] /\ Scripts.final_status r = 1)
    /\ (ready = true ->
        exists rest,
          Scripts.commands r
          = (if Scripts.is_some (Scripts.dotenv h)
             then Scripts.SourceDotenv else Scripts.CopyTemplate) :: rest).
Proof.
  intros h arg. cbv zeta. rewrite final_status_control.
  unfold DockerStart.docker_start, DockerStart.prepare_dotenv.
  forget_texts.
  do 3 (rewrite commands_bind, control_bind;
        cbn -[Scripts.bind Scripts.status_of String.eqb]).
  destruct (Scripts.has_docker h);
    cbn -[Scripts.bind Scripts.status_of String.eqb];
    [|split; [split; reflexivity|discriminate]].
  rewrite commands_bind, control_bind.
  destruct (Scripts.has_docker_compose h), (Scripts.has_compose_plugin h);
    cbn -[Scripts.bind Scripts.status_of String.eqb];
    try (split; [split; reflexivity|discriminate]).
  all: rewrite commands_bind, control_bind.
  all: destruct (Scripts.docker_running h);
    cbn -[Scripts.bind Scripts.status_of String.eqb];
    [|split; [split; reflexivity|discriminate]].
  all: do 2 (rewrite commands_bind, control_bind;
             cbn -[Scripts.bind Scripts.status_of String.eqb]).
  all: destruct (Scripts.dotenv h) as [vars|];
    [|destruct (Scripts.dotenv_docker h) as [vars|]];
    cbn -[Scripts.bind Scripts.status_of String.eqb];
    try (split; [split; reflexivity|discriminate]).
  all: split; [discriminate|intros _].
  all: repeat (rewrite commands_bind;
               cbn -[Scripts.bind Scripts.commands Scripts.status_of String.eqb]).
  all: cbn -[Scripts.bind Scripts.status_of String.eqb].
  all: eexists; reflexivity.
Qed.

(** Two scripts that run the same commands and end alike, followed by
    continuations that do so whatever value they receive. *)
Lemma same_bind {A A' B B'} (c : Scripts.Sh A) (c' : Scripts.Sh A')
    (k : A -> Scripts.Sh B) (k' : A' -> Scripts.Sh B') :
  Scripts.commands c = Scripts.commands c' ->
  Scripts.control c = Scripts.control c' ->
  (forall a a',
      Scripts.commands (k a) = Scripts.commands (k' a')
      /\ Scripts.control (k a) = Scripts.control (k' a')) ->
  Scripts.commands (Scripts.bind c k) = Scripts.commands (Scripts.bind c' k')
  /\ Scripts.control (Scripts.bind c k) = Scripts.control (Scripts.bind c' k').
Proof.
  intros Hc Hs Hk. rewrite !commands_bind, !control_bind, Hc.
  unfold Scripts.control in Hs.
  destruct (snd c) as [a|s], (snd c') as [a'|s']; try discriminate.
  - destruct (Hk a a') as [-> ->]. split; reflexivity.
  - injection Hs as ->. split; reflexivity.
Qed.

(** X19. The values that [SECRET_KEY] and the two API keys have after
    [source .env] only change the warnings of the start script: on two
    hosts that differ at most in these values, every command ending alike
    on both ([source .env] included), the script runs the same commands
    and ends with the same status.  No test of a key stops the script. *)
Theorem start_script_keys_only_warn :
  forall (h h' : Scripts.Host) (arg : string),
    Scripts.same_but_values h h' ->
    Scripts.commands (DockerStart.docker_start h' arg)
    = Scripts.commands (DockerStart.docker_start h arg)
    /\ Scripts.final_status (DockerStart.docker_start h' arg)
       = Scripts.final_status (DockerStart.docker_start h arg).
Proof.
  intros h h' arg S. rewrite !final_status_control.
  enough (Scripts.commands (DockerStart.docker_start h' arg)
          = Scripts.commands (DockerStart.docker_start h arg)
          /\ Scripts.control (DockerStart.docker_start h' arg)
             = Scripts.control (DockerStart.docker_start h arg)) as [-> ->]
    by (split; reflexivity).
  destruct h as [d dc cp dr st e t n], h' as [d' dc' cp' dr' st' e' t' n'].
  unfold Scripts.same_but_values in S. cbn in S.
  destruct S as [<- [<- [<- [<- [Hst [He Ht]]]]]].
  unfold DockerStart.docker_start, DockerStart.prepare_dotenv.
  forget_texts.
  unfold Scripts.run, Scripts.attempt, Scripts.compose, Scripts.status_of.
  cbn [Scripts.has_docker Scripts.has_docker_compose Scripts.has_compose_plugin
       Scripts.docker_running Scripts.exit_status Scripts.dotenv
       Scripts.dotenv_docker Scripts.running_containers].
  rewrite <- !Hst.
  destruct e as [v|], e' as [v'|]; try discriminate He;
    destruct t as [w|], t' as [w'|]; try discriminate Ht.
  all: repeat (apply same_bind;
               [ try reflexivity | try reflexivity | intros ? ?; cbv beta ]).
  all: try (split; reflexivity).
  all: try (destruct (st Scripts.CopyTemplate); reflexivity).
  all: repeat match goal with
       | |- context [if ?b then _ else _] => destruct b
       end; reflexivity.
Qed.

Lemma start_script_keys_only_warn_witness :
  Scripts.dotenv plugin_only_host_unconfigured <> Scripts.dotenv plugin_only_host
  /\ Scripts.commands (DockerStart.docker_start plugin_only_host_unconfigured "")
     = Scripts.commands (DockerStart.docker_start plugin_only_host "")
  /\ Scripts.final_status (DockerStart.docker_start plugin_only_host_unconfigured "")
     = Scripts.final_status (DockerStart.docker_start plugin_only_host "").
Proof.
  split; [discriminate|].
  apply (start_script_keys_only_warn plugin_only_host
           plugin_only_host_unconfigured "").
  repeat split; reflexivity.
Defined.

Lemma outputs_bind {A B} (c : Scripts.Sh A) (k : A -> Scripts.Sh B) :
  Scripts.outputs (Scripts.bind c k)
  = (Scripts.outputs c
     ++ match snd c with
        | Scripts.Continue a => Scripts.outputs (k a)
        | Scripts.Exit _ => []
        end)%list.
Proof.
  destruct c as [l1 [a|s]]; unfold Scripts.outputs; cbn.
  - destruct (k a) as [l2 r]. reflexivity.
  - symmetry. apply app_nil_r.
Qed.

(** A command that the first part of a script does not run is run by the
    rest, and what holds of the rest once it ran that command holds of
    the whole. *)
Lemma reached_bind {A B} (c : Scripts.Sh A) (k : A -> Scripts.Sh B)
    (x : Scripts.Command) (o : Scripts.Output) :
  ~ In x (Scripts.commands c) ->
  (forall a, In x (Scripts.commands (k a)) ->
             Scripts.control (k a) = None /\ In o (Scripts.outputs (k a))) ->
  In x (Scripts.commands (Scripts.bind c k)) ->
  Scripts.control (Scripts.bind c k) = None
  /\ In o (Scripts.outputs (Scripts.bind c k)).
Proof.
  intros Hc Hk. rewrite commands_bind, control_bind, outputs_bind.
  intros H. apply in_app_or in H. destruct H as [H|H]; [contradiction|].
  destruct (snd c) as [a|s]; [|destruct H].
  destruct (Hk a H) as [-> Ho]. split; [reflexivity|].
  apply in_or_app. right. exact Ho.
Qed.


Ltac by_cases :=
  repeat match goal with
         | |- context [if ?b then _ else _] => destruct b
         | |- context [match ?x with Some _ => _ | None => _ end] => destruct x
         end.

(** X20. Once the start script has reached a health check, it ends with
    status 0 and announces that the application is started, whether or
    not the backend and the frontend answer. *)
Theorem start_script_announces_start_whatever_the_health :
  forall (h : Scripts.Host) (arg url : string),
    let r := DockerStart.docker_start h arg in
    In (Scripts.Curl url) (Scripts.commands r) ->
    Scripts.final_status r = 0 /\ In DockerStart.started (Scripts.outputs r).
Proof.
  intros h arg url. cbv zeta. rewrite final_status_control.
  enough (In (Scripts.Curl url)
             (Scripts.commands (DockerStart.docker_start h arg)) ->
          Scripts.control (DockerStart.docker_start h arg) = None
          /\ In DockerStart.started
                (Scripts.outputs (DockerStart.docker_start h arg))) as E
    by (intros H; destruct (E H) as [-> Ho]; split; [reflexivity|exact Ho]).
  unfold DockerStart.docker_start, DockerStart.prepare_dotenv,
    DockerStart.started.
  forget_texts. unfold Scripts.run, Scripts.attempt.
  repeat (apply reached_bind;
          [ solve [ by_cases; cbn -[Scripts.status_of]; by_status; cbn;
                    intuition discriminate ]
          | intros ?; cbv beta ]).
  intros _. cbn.
  repeat (match goal with
          | |- context [if ?b then _ else _] => destruct b
          end; cbn).
  all: split; [reflexivity|]; repeat (first [left; reflexivity | right]).
Qed.

Lemma start_script_announces_start_whatever_the_health_witness :
  In (Scripts.Curl "http://localhost:80")
     (Scripts.commands (DockerStart.docker_start plugin_only_host_unhealthy ""))
  /\ Scripts.status_of plugin_only_host_unhealthy
       (Scripts.Curl "http://localhost:80") = 7
  /\ Scripts.final_status (DockerStart.docker_start plugin_only_host_unhealthy "")
     = 0
  /\ In DockerStart.started
        (Scripts.outputs (DockerStart.docker_start plugin_only_host_unhealthy "")).
Proof.
  assert (H : In (Scripts.Curl "http://localhost:80")
                 (Scripts.commands
                    (DockerStart.docker_start plugin_only_host_unhealthy "")))
    by (vm_compute; tauto).
  split; [exact H|]. split; [reflexivity|].
  exact (start_script_announces_start_whatever_the_health
           plugin_only_host_unhealthy "" "http://localhost:80" H).
Defined.





(** X22. The start script ignores how [docker-compose down] and the two
    health checks end: with other exit statuses for them it runs the
    same commands and ends with the same status. *)
Theorem start_script_ignored_statuses :
  forall (h : Scripts.Host) (arg : string) (down curl : nat),
    let r := DockerStart.docker_start h arg in
    let r' := DockerStart.docker_start (Scripts.with_statuses down curl h) arg in
    Scripts.commands r' = Scripts.commands r
    /\ Scripts.final_status r' = Scripts.final_status r.
Proof.
  intros h arg down curl. cbv zeta. rewrite !final_status_control.
  enough (Scripts.commands
            (DockerStart.docker_start (Scripts.with_statuses down curl h) arg)
          = Scripts.commands (DockerStart.docker_start h arg)
          /\ Scripts.control
               (DockerStart.docker_start (Scripts.with_statuses down curl h) arg)
             = Scripts.control (DockerStart.docker_start h arg)) as [-> ->]
    by (split; reflexivity).
  unfold DockerStart.docker_start, DockerStart.prepare_dotenv.
  forget_texts.
  destruct h as [d dc cp dr st e t n].
  unfold Scripts.with_statuses, Scripts.run, Scripts.attempt,
    Scripts.compose, Scripts.status_of.
  cbn [Scripts.has_docker Scripts.has_docker_compose Scripts.has_compose_plugin
       Scripts.docker_running Scripts.exit_status Scripts.dotenv
       Scripts.dotenv_docker Scripts.running_containers].
  destruct dc.
  all: repeat (apply same_bind;
               [ try reflexivity | try reflexivity | intros ? ?; cbv beta ]).
  all: try (split; reflexivity).
  all: repeat match goal with
       | |- context [if ?b then _ else _] => destruct b
       end; reflexivity.
Qed.

(** ** The scripts on a machine with the Compose plugin only *)

Example docker_start_clean_with_plugin_only :
  Scripts.commands (DockerStart.docker_start plugin_only_host "--clean")
  = [Scripts.SourceDotenv;
     Scripts.ComposeDown Scripts.Hyphen true true;
     Scripts.SystemPrune;
     Scripts.ComposeBuildNoCache Scripts.Plugin;
     Scripts.ComposeUpDetached Scripts.Plugin;
     Scripts.Sleep 10;
     Scripts.Curl "http://localhost:5001/health";
     Scripts.Curl "http://localhost:80"]
  /\ Scripts.final_status (DockerStart.docker_start plugin_only_host "--clean")
     = 0.
Proof. split; reflexivity. Qed.

Example docker_start_unhealthy_messages :
  filter (fun o => match o with
                   | Scripts.Message Scripts.Error _ => true
                   | Scripts.Message Scripts.Success _ => true
                   | _ => false
                   end)
         (Scripts.outputs (DockerStart.docker_start plugin_only_host_unhealthy ""))
  = [Scripts.Message Scripts.Success "Docker est installé et en cours d'exécution";
     Scripts.Message Scripts.Error
       "Le backend ne répond pas sur http://localhost:5001/health";
     Scripts.Message Scripts.Error
       "Le frontend ne répond pas sur http://localhost:80";
     DockerStart.started].
Proof. reflexivity. Qed.

Example docker_stop_volumes_with_plugin_only :
  Scripts.commands (DockerStop.docker_stop plugin_only_host "--volumes")
  = [Scripts.ComposeDown Scripts.Plugin true false;
     Scripts.ListContainers false]
  /\ Scripts.final_status (DockerStop.docker_stop plugin_only_host "--volumes")
     = 0.
Proof. split; reflexivity. Qed.
